(** * hill_descent analysis scripts: a shallow embedding and its properties

    Two scripts are embedded:
    - [analyze_profiles.py]: exclusive / inclusive sample counting over a
      speedscope capture, the two top-20 listings and the target checks;
    - [compare_benchmarks.py]: extraction of the results table of a
      benchmark report and the old / new timing comparison.

    Conventions of the embedding.
    - A Python [str] is a list of characters ([str := list ascii]), a
      character being its code point: the strings of the model are the
      Python strings with code points below 256 (ASCII and Latin-1), on
      which [lower] and [strip] are the character-wise functions given
      here; frame names and file contents are taken to be such text.
    - A Python [int] is a [Z].  A Python [float] holding a time or a
      percentage is an exact rational ([Q]): rounding and the formatting
      of numbers by the f-strings are outside the model.
    - An exception is a value of [exn]; a computation that may raise has
      type [result A]; a computation that also prints threads the list of
      lines printed so far ([IO L A]).
    - [collections.Counter] is an association list in insertion order,
      which is the order [most_common] uses to break ties. *)

From Stdlib Require Import Ascii String.
From Stdlib Require Import List ZArith QArith Bool Arith Lia.
From Stdlib Require Import Sorted Permutation.
Import ListNotations.

(* ================================================================== *)
(** * Python values, exceptions and printing                           *)
(* ================================================================== *)

Definition str := list ascii.

(** String literals of the scripts. *)
Definition lit (s : string) : str := list_ascii_of_string s.

Definition nl : ascii := "010"%char.

Inductive exn : Type :=
| IndexError
| ValueError
| ZeroDivisionError
| FileNotFoundError.

Inductive result (A : Type) : Type :=
| Ok (a : A)
| Raise (e : exn).

Arguments Ok {A} a.
Arguments Raise {A} e.

Definition rbind {A B} (r : result A) (k : A -> result B) : result B :=
  match r with
  | Ok a => k a
  | Raise e => Raise e
  end.

(** A printing computation: it receives the lines printed so far and gives
    back the lines printed when it stops, with its value or the exception
    that stopped it. *)
Definition IO (L A : Type) : Type := list L -> list L * result A.

Definition ret {L A} (a : A) : IO L A := fun out => (out, Ok a).

Definition bind {L A B} (m : IO L A) (k : A -> IO L B) : IO L B :=
  fun out =>
    match m out with
    | (out', Ok a) => k a out'
    | (out', Raise e) => (out', Raise e)
    end.

Definition print {L} (l : L) : IO L unit := fun out => (out ++ [l], Ok tt).

Definition lift {L A} (r : result A) : IO L A := fun out => (out, r).

Declare Scope io_scope.
Delimit Scope io_scope with io.
Notation "x <- m ;; k" := (bind m (fun x => k))
  (at level 61, m at next level, right associativity) : io_scope.
Notation "m ;; k" := (bind m (fun _ => k))
  (at level 61, right associativity) : io_scope.

(** [for x in xs: body x] *)
Fixpoint for_each {L A} (xs : list A) (body : A -> IO L unit) : IO L unit :=
  match xs with
  | [] => ret tt
  | x :: xs' => bind (body x) (fun _ => for_each xs' body)
  end.

(** [a / b] on integers (true division); a zero divisor raises. *)
Definition truediv (a b : Z) : result Q :=
  if (b =? 0)%Z then Raise ZeroDivisionError
  else Ok (inject_Z a / inject_Z b).

(** [a / b] on floats; a zero divisor raises. *)
Definition fdiv (a b : Q) : result Q :=
  if Qeq_bool b 0 then Raise ZeroDivisionError else Ok (a / b).

(** [l[i]] for a list and an integer index: negative indices count from
    the end, anything else out of range raises [IndexError]. *)
Definition getitem {A} (l : list A) (i : Z) : result A :=
  let n := Z.of_nat (length l) in
  let j := if (i <? 0)%Z then (n + i)%Z else i in
  if ((0 <=? j)%Z && (j <? n)%Z)%bool then
    match nth_error l (Z.to_nat j) with
    | Some a => Ok a
    | None => Raise IndexError
    end
  else Raise IndexError.

(** [enumerate(l)] *)
Fixpoint enumerate_from {A} (i : Z) (l : list A) : list (Z * A) :=
  match l with
  | [] => []
  | a :: l' => (i, a) :: enumerate_from (i + 1) l'
  end.

Definition enumerate {A} (l : list A) : list (Z * A) := enumerate_from 0 l.

(** [sum(l)] *)
Definition sum (l : list Z) : Z := fold_left Z.add l 0%Z.

(* ------------------------------------------------------------------ *)
(** ** Strings                                                         *)
(* ------------------------------------------------------------------ *)

(** [c.lower()] on a character with a code point below 256: the capital
    letters are A-Z (65-90), the accented capitals from 192 to 214 and
    from 216 to 222 (215 is the multiplication sign), and the small
    letter of each is 32 further. *)
Definition lower_char (c : ascii) : ascii :=
  let n := nat_of_ascii c in
  if ((65 <=? n)%nat && (n <=? 90)%nat)
     || ((192 <=? n)%nat && (n <=? 214)%nat)
     || ((216 <=? n)%nat && (n <=? 222)%nat)
  then ascii_of_nat (n + 32) else c.

(** [s.lower()] *)
Definition lower (s : str) : str := map lower_char s.

(** [s.startswith(p)] *)
Fixpoint startswith (p s : str) : bool :=
  match p, s with
  | [], _ => true
  | _ :: _, [] => false
  | a :: p', b :: s' => Ascii.eqb a b && startswith p' s'
  end.

(** [needle in hay] on strings: [needle] occurs at some position. *)
Fixpoint contains (needle hay : str) : bool :=
  startswith needle hay ||
  match hay with
  | [] => false
  | _ :: hay' => contains needle hay'
  end.

(** [s.split(sep)] for a one-character separator: one field more than
    there are separators. *)
Fixpoint split (sep : ascii) (s : str) : list str :=
  match s with
  | [] => [[]]
  | c :: s' =>
      if Ascii.eqb c sep then [] :: split sep s'
      else match split sep s' with
           | [] => [[c]]
           | f :: fs => (c :: f) :: fs
           end
  end.

(** White space among the code points below 256, as [str.strip()]
    removes it: 9-13, 28-32, 133 (next line) and 160 (no-break space). *)
Definition is_space (c : ascii) : bool :=
  let n := nat_of_ascii c in
  ((9 <=? n)%nat && (n <=? 13)%nat) || ((28 <=? n)%nat && (n <=? 32)%nat)
  || (n =? 133)%nat || (n =? 160)%nat.

Fixpoint lstrip (s : str) : str :=
  match s with
  | [] => []
  | c :: s' => if is_space c then lstrip s' else s
  end.

Definition rstrip (s : str) : str := rev (lstrip (rev s)).

(** [s.strip()] *)
Definition strip (s : str) : str := rstrip (lstrip s).

(* ================================================================== *)
(** * collections.Counter                                              *)
(* ================================================================== *)

Module Counter.

(** The items of the counter, in insertion order. *)
Definition t : Type := list (Z * Z).

Definition empty : t := [].

(** [c[k]]: a missing key reads as 0 and is not inserted. *)
Fixpoint get (c : t) (k : Z) : Z :=
  match c with
  | [] => 0
  | (k', v) :: c' => if (k =? k')%Z then v else get c' k
  end.

(** [c[k] += 1]: a present key keeps its place, a new key goes last. *)
Fixpoint incr (c : t) (k : Z) : t :=
  match c with
  | [] => [(k, 1%Z)]
  | (k', v) :: c' =>
      if (k =? k')%Z then (k', (v + 1)%Z) :: c' else (k', v) :: incr c' k
  end.

Definition keys (c : t) : list Z := map fst c.
Definition values (c : t) : list Z := map snd c.

(** The place of [x] in a list already sorted by descending count: after
    the items with a larger count, before those with the same count or
    less. *)
Fixpoint insert_desc (x : Z * Z) (l : list (Z * Z)) : list (Z * Z) :=
  match l with
  | [] => [x]
  | y :: l' =>
      if (snd y <=? snd x)%Z then x :: y :: l' else y :: insert_desc x l'
  end.

(** [sorted(items, key=itemgetter(1), reverse=True)]: Python's sort is
    stable, also with [reverse=True]; the stable sort of a list is
    unique, and this insertion sort computes it. *)
Definition sorted_desc (l : list (Z * Z)) : list (Z * Z) :=
  fold_right insert_desc [] l.

(** [c.most_common(n)] is [heapq.nlargest(n, c.items(), key=count)],
    which the library defines as
    [sorted(c.items(), key=count, reverse=True)[:n]]. *)
Definition most_common (n : nat) (c : t) : list (Z * Z) :=
  firstn n (sorted_desc c).

(** ** Reference notions for the statements *)

(** What one increment of key [k] adds to the count of [j]. *)
Definition hit (j k : Z) : Z := if (j =? k)%Z then 1%Z else 0%Z.

(** How often [j] occurs in a list of keys. *)
Fixpoint occ (j : Z) (ks : list Z) : Z :=
  match ks with
  | [] => 0%Z
  | k :: ks' => (hit j k + occ j ks')%Z
  end.

(** The count of [a] is at least the count of [b]. *)
Definition count_ge (a b : Z * Z) : Prop := (snd b <= snd a)%Z.

(** Every count kept in the counter is at least 1. *)
Definition positive (c : t) : Prop := Forall (fun p => (1 <= snd p)%Z) c.

End Counter.

(* ================================================================== *)
(** * analyze_profiles.py                                              *)
(* ================================================================== *)

(** [set(stack)] and its iteration.  The order in which a Python set
    yields its elements is left open by the language; the embedding asks
    only for what every implementation gives: each element of the stack
    once. *)
Class PySet : Type := {
  set_iter : list Z -> list Z;
  set_iter_NoDup : forall stack, NoDup (set_iter stack);
  set_iter_In : forall stack x, In x (set_iter stack) <-> In x stack
}.

(** One iteration order, keeping the last occurrence of each element. *)
#[refine] Instance nodup_PySet : PySet := {| set_iter := nodup Z.eq_dec |}.
Proof.
  - intros stack. apply NoDup_nodup.
  - intros stack x. apply nodup_In.
Defined.

(** The parsed JSON document: [data['shared']['frames']], each frame with
    its optional ['name'], and [data['profiles']], each profile reduced to
    its ['samples'], a list of stacks of frame indices. *)
Record profile_data : Type := {
  frames : list (option str);
  profiles : list (list (list Z))
}.

(** The three accumulators of the loop at lines 13-28. *)
Record counts : Type := {
  total_samples : Z;
  exclusive_counter : Counter.t;
  inclusive_counter : Counter.t
}.

(** The lines the script prints.  A percentage is kept as the exact value
    of [100*count/total_samples]. *)
Inductive line : Type :=
| LAnalyzing (filename : str)
| LTotalSamples (n : Z)
| LTopExclusive (filename : str)
| LTopInclusive (filename : str)
| LFrame (count : Z) (pct : Q) (name : str)
| LSpecificChecks
| LTarget (t : str) (total_inc : Z) (pct_inc : Q)
          (total_exc : Z) (pct_exc : Q)
| LBlank.

Definition targets : list str :=
  [ lit "__lll_lock_wake_private";
    lit "ArcSwap";
    lit "Mutex";
    lit "RwLock";
    lit "Rayon";
    lit "IndexMap";
    lit "shift_remove";
    lit "malloc";
    lit "cfree";
    lit "Vec::push";
    lit "collect";
    lit "alloc";
    lit "dealloc" ].

Section AnalyzeProfile.

Context {PS : PySet}.

(** [frame_names = [f.get('name', 'unknown') for f in frames]] *)
Definition frame_names_of (fs : list (option str)) : list str :=
  map (fun f => match f with Some n => n | None => lit "unknown" end) fs.

(** The body of [for stack in samples] (lines 21-28). *)
Definition count_stack (c : counts) (stack : list Z) : counts :=
  match stack with
  | [] => c
  | _ :: _ =>
      {| total_samples := total_samples c;
         exclusive_counter :=
           Counter.incr (exclusive_counter c) (last stack 0%Z);
         inclusive_counter :=
           fold_left Counter.incr (set_iter stack) (inclusive_counter c) |}
  end.

(** The body of [for profile in data['profiles']] (lines 18-28). *)
Definition count_profile (c : counts) (samples : list (list Z)) : counts :=
  let c' := {| total_samples := total_samples c + Z.of_nat (length samples);
               exclusive_counter := exclusive_counter c;
               inclusive_counter := inclusive_counter c |} in
  fold_left count_stack samples c'.

Definition counts0 : counts :=
  {| total_samples := 0;
     exclusive_counter := Counter.empty;
     inclusive_counter := Counter.empty |}.

(** Lines 13-28. *)
Definition accumulate (d : profile_data) : counts :=
  fold_left count_profile (profiles d) counts0.

(** One line of a top-20 listing (lines 34 and 38): the f-string
    evaluates the division before the name lookup. *)
Definition print_frame (total : Z) (frame_names : list str)
           (item : Z * Z) : IO line unit :=
  (let (frame_idx, count) := item in
   pct <- lift (truediv (100 * count) total) ;;
   name <- lift (getitem frame_names frame_idx) ;;
   print (LFrame count pct name))%io.

(** [matches] of line 58. *)
Definition matches (t : str) (frame_names : list str) : list (Z * str) :=
  filter (fun p => contains (lower t) (lower (snd p)))
         (enumerate frame_names).

(** The sums of lines 59 and 60 over a counter. *)
Definition total_over (c : Counter.t) (ms : list (Z * str)) : Z :=
  sum (map (fun p => Counter.get c (fst p)) ms).

(** The body of [for t in targets] (lines 58-62). *)
Definition check_target (c : counts) (frame_names : list str)
           (t : str) : IO line unit :=
  (let ms := matches t frame_names in
   let total_inc := total_over (inclusive_counter c) ms in
   let total_exc := total_over (exclusive_counter c) ms in
   if (0 <? total_inc)%Z then
     pct_inc <- lift (truediv (100 * total_inc) (total_samples c)) ;;
     pct_exc <- lift (truediv (100 * total_exc) (total_samples c)) ;;
     print (LTarget t total_inc pct_inc total_exc pct_exc)
   else ret tt)%io.

(** [analyze_profile(filename)], on the document read from the file. *)
Definition analyze_profile (filename : str) (d : profile_data)
  : IO line unit :=
  (print (LAnalyzing filename) ;;
   let frame_names := frame_names_of (frames d) in
   let c := accumulate d in
   print (LTotalSamples (total_samples c)) ;;
   print (LTopExclusive filename) ;;
   for_each (Counter.most_common 20 (exclusive_counter c))
            (print_frame (total_samples c) frame_names) ;;
   print (LTopInclusive filename) ;;
   for_each (Counter.most_common 20 (inclusive_counter c))
            (print_frame (total_samples c) frame_names) ;;
   print LSpecificChecks ;;
   for_each targets (check_target c frame_names) ;;
   print LBlank)%io.

(** ** Reference notions for the statements *)

(** All the samples of the document, in the order the loops visit them. *)
Definition all_samples (d : profile_data) : list (list Z) :=
  concat (profiles d).

Definition is_empty (stack : list Z) : bool :=
  match stack with [] => true | _ :: _ => false end.

Definition mem (k : Z) (stack : list Z) : bool := existsb (Z.eqb k) stack.

Definition is_leaf (k : Z) (stack : list Z) : bool :=
  match stack with
  | [] => false
  | _ :: _ => (last stack 0 =? k)%Z
  end.

Definition count_if {A} (f : A -> bool) (l : list A) : Z :=
  Z.of_nat (length (filter f l)).

(** The document without its empty stacks. *)
Definition drop_empty (d : profile_data) : profile_data :=
  {| frames := frames d;
     profiles := map (filter (fun stack => negb (is_empty stack)))
                     (profiles d) |}.

(** What a stack sends to the exclusive and to the inclusive counter. *)
Definition leaf_keys (stack : list Z) : list Z :=
  match stack with [] => [] | _ :: _ => [last stack 0%Z] end.

Definition set_keys (stack : list Z) : list Z :=
  match stack with [] => [] | _ :: _ => set_iter stack end.

(** The keys in the order in which the counter increments them: one
    leaf per non-empty stack for the exclusive counter, the iteration of
    the stack's set for the inclusive one. *)
Definition exclusive_events (d : profile_data) : list Z :=
  flat_map leaf_keys (all_samples d).

Definition inclusive_events (d : profile_data) : list Z :=
  flat_map set_keys (all_samples d).

End AnalyzeProfile.

(** The two listings of the report, with the counter each one ranks and
    the keys in the order in which that counter was incremented. *)
Inductive listing : Type := Exclusive | Inclusive.

Definition counter_of (which : listing) (c : counts) : Counter.t :=
  match which with
  | Exclusive => exclusive_counter c
  | Inclusive => inclusive_counter c
  end.

Definition events_of {PS : PySet} (which : listing) (d : profile_data)
  : list Z :=
  match which with
  | Exclusive => exclusive_events d
  | Inclusive => inclusive_events d
  end.

(** The position of the first occurrence of [k]. *)
Fixpoint first_index (k : Z) (l : list Z) : option nat :=
  match l with
  | [] => None
  | x :: l' =>
      if (x =? k)%Z then Some O else option_map S (first_index k l')
  end.

(** The first increment of [k1] comes before the first increment
    of [k2]. *)
Definition earlier (k1 k2 : Z) (events : list Z) : Prop :=
  exists a b,
    first_index k1 events = Some a /\ first_index k2 events = Some b /\
    (a < b)%nat.

(** [a] stands somewhere before [b] in [l]. *)
Definition before {A} (a b : A) (l : list A) : Prop :=
  exists l1 l2 l3, l = l1 ++ a :: l2 ++ b :: l3.

(** What [c[k] += 1] does to the keys. *)
Definition add_key (ks : list Z) (k : Z) : list Z :=
  if existsb (Z.eqb k) ks then ks else ks ++ [k].

(** A computation that stops, on every output so far, either normally or
    with an [IndexError]: no other exception leaves it. *)
Definition only_index_error {L A} (m : IO L A) : Prop :=
  forall out,
    match snd (m out) with
    | Ok _ => True
    | Raise IndexError => True
    | Raise _ => False
    end.

(** The document of the specification's end-to-end example: frames [a]
    and [b], one profile with the samples [[0,1]] and [[1]]. *)
Definition ab_data : profile_data :=
  {| frames := [Some (lit "a"); Some (lit "b")];
     profiles := [[[0%Z; 1%Z]; [1%Z]]] |}.

(** A document with two leaves of equal exclusive count, 5 seen first. *)
Definition tie_data : profile_data :=
  {| frames := [];
     profiles := [[[5%Z]; [3%Z]; [5%Z]; [3%Z]]] |}.

(** What the stack [s] adds to the exclusive count of [k]. *)
Definition leaf_hit (s : list Z) (k : Z) : Z :=
  if is_leaf k s then 1%Z else 0%Z.

(** A line of the target checks. *)
Definition is_target_line (l : line) : bool :=
  match l with
  | LTarget _ _ _ _ _ => true
  | _ => false
  end.

(** A frame table whose first three names hold [mutex] with capital and
    with small letters, inside longer words. *)
Definition mutex_names : list str :=
  [ lit "sys::Mutex::lock"; lit "MutexGuard::drop"; lit "RAW_MUTEX_LOCK";
    lit "mute x"; lit "main" ].

(** ** Reference notions for the report *)

(** [i] is an index Python accepts for [l]: from [-len(l)] to
    [len(l) - 1]. *)
Definition in_range {A} (l : list A) (i : Z) : bool :=
  ((- Z.of_nat (length l) <=? i) && (i <? Z.of_nat (length l)))%Z.

(** The element an index in range stands for: counted from the front for
    [i >= 0], from the end for [i < 0] ([-1] is the last element). *)
Definition item_at {A} (l : list A) (i : Z) (default : A) : A :=
  if (i <? 0)%Z then nth (Z.to_nat (- i - 1)) (rev l) default
  else nth (Z.to_nat i) l default.

(** The line of a listed item. *)
Definition frame_line (total : Z) (frame_names : list str) (item : Z * Z)
  : line :=
  LFrame (snd item) (inject_Z (100 * snd item) / inject_Z total)
         (item_at frame_names (fst item) []).

(** The lines of the report of a document, when no exception stops it. *)
Definition target_line {PS : PySet} (c : counts) (frame_names : list str)
           (t : str) : list line :=
  let ms := matches t frame_names in
  let total_inc := total_over (inclusive_counter c) ms in
  let total_exc := total_over (exclusive_counter c) ms in
  if (0 <? total_inc)%Z then
    [LTarget t total_inc
             (inject_Z (100 * total_inc) / inject_Z (total_samples c))
             total_exc
             (inject_Z (100 * total_exc) / inject_Z (total_samples c))]
  else [].

Definition report_lines {PS : PySet} (filename : str) (d : profile_data)
  : list line :=
  let c := accumulate d in
  let frame_names := frame_names_of (frames d) in
  [LAnalyzing filename; LTotalSamples (total_samples c);
   LTopExclusive filename]
  ++ map (frame_line (total_samples c) frame_names)
         (Counter.most_common 20 (exclusive_counter c))
  ++ [LTopInclusive filename]
  ++ map (frame_line (total_samples c) frame_names)
         (Counter.most_common 20 (inclusive_counter c))
  ++ [LSpecificChecks]
  ++ flat_map (target_line c frame_names) targets
  ++ [LBlank].

(** The items of the two listings. *)
Definition listed {PS : PySet} (d : profile_data) : list (Z * Z) :=
  Counter.most_common 20 (exclusive_counter (accumulate d))
  ++ Counter.most_common 20 (inclusive_counter (accumulate d)).

(** The indices of all listed items are in the range of the frame
    table. *)
Definition listed_in_range {PS : PySet} (d : profile_data) : bool :=
  forallb (fun item => in_range (frame_names_of (frames d)) (fst item))
          (listed d).

(** ** The script of analyze_profiles.py (lines 65-67) *)

(** [analyze_profile(filename)] with the files of the run: [docs] gives
    the document of a file that opens and parses, [None] stands for a
    file that is not there. *)
Definition analyze_profile_at {PS : PySet}
           (docs : str -> option profile_data) (filename : str)
  : IO line unit :=
  match docs filename with
  | Some d => analyze_profile filename d
  | None => bind (print (LAnalyzing filename))
                 (fun _ => lift (Raise FileNotFoundError))
  end.

Definition profiles_main {PS : PySet} (docs : str -> option profile_data)
  : IO line unit :=
  bind (analyze_profile_at docs (lit "profile.speedscope1.json"))
       (fun _ => analyze_profile_at docs (lit "profile.speedscope3.json")).

(** A document whose only sample has the leaf 7, outside a table of one
    frame; a document with two samples, both with an empty stack; and a
    document that reaches the last frame with the index [-1]. *)
Definition leaf_outside : profile_data :=
  {| frames := [Some (lit "main")]; profiles := [[[0%Z; 7%Z]]] |}.

Definition only_empty_stacks : profile_data :=
  {| frames := [Some (lit "main")]; profiles := [[[]; []]] |}.

Definition last_by_minus_one : profile_data :=
  {| frames := [Some (lit "main"); None]; profiles := [[[0%Z; (-1)%Z]]] |}.

(** ** Case-insensitive occurrence, stated without [lower] *)

(** The code point [n] is a capital letter: A-Z, or an accented capital
    of Latin-1. *)
Definition is_capital (n : nat) : Prop :=
  (65 <= n <= 90)%nat \/ (192 <= n <= 214)%nat \/ (216 <= n <= 222)%nat.

(** [l] is the small letter of the capital letter [u]. *)
Definition small_of (u l : ascii) : Prop :=
  is_capital (nat_of_ascii u)
  /\ nat_of_ascii l = (nat_of_ascii u + 32)%nat.

(** Two characters are the same up to case: the same character, or a
    capital letter and its small letter, either way round. *)
Definition same_letter (a b : ascii) : Prop :=
  a = b \/ small_of a b \/ small_of b a.

(** [t] occurs in [name] up to the case of the letters: some run of
    consecutive characters of [name] has the characters of [t], position
    by position, up to case. *)

Definition ci_substring (t name : str) : Prop :=
  exists pre mid post,
    name = pre ++ mid ++ post /\ Forall2 same_letter t mid.

(* ================================================================== *)
(** * The regular expression of compare_benchmarks.py                  *)
(* ================================================================== *)

Module Re.

(** The pieces the pattern of [parse_times] is made of: literal text
    and [.*?] under [re.DOTALL], where [.] is any character, the newline
    too.  The pattern's one group is never read (only [group(0)] is), so
    the group is not kept. *)
Inductive atom : Type :=
| Lit (s : str)
| LazyAny.

Definition pattern : Type := list atom.

(** [strip_prefix l s] is what follows [l] in [s] when [s] starts
    with [l]. *)
Fixpoint strip_prefix (l s : str) : option str :=
  match l, s with
  | [], _ => Some s
  | _ :: _, [] => None
  | a :: l', b :: s' => if Ascii.eqb a b then strip_prefix l' s' else None
  end.

(** Backtracking match of [p] at the start of [s]; the result is the
    text matched.  A lazy [.*?] takes no character first and one more
    each time the rest of the pattern fails. *)
Fixpoint match_here (p : pattern) (s : str) {struct p} : option str :=
  match p with
  | [] => Some []
  | Lit l :: p' =>
      match strip_prefix l s with
      | Some s' => option_map (app l) (match_here p' s')
      | None => None
      end
  | LazyAny :: p' =>
      (fix lazy (s : str) : option str :=
         match match_here p' s with
         | Some m => Some m
         | None =>
             match s with
             | [] => None
             | c :: s' => option_map (cons c) (lazy s')
             end
         end) s
  end.

(** [re.search(p, s, re.DOTALL)]: the match at the leftmost position
    that has one; the result is [group(0)]. *)
Fixpoint search (p : pattern) (s : str) : option str :=
  match match_here p s with
  | Some m => Some m
  | None =>
      match s with
      | [] => None
      | _ :: s' => search p s'
      end
  end.

(** The texts a pattern matches. *)
Fixpoint lang (p : pattern) (m : str) : Prop :=
  match p with
  | [] => m = []
  | Lit l :: p' => exists m', m = l ++ m' /\ lang p' m'
  | LazyAny :: p' => exists a m', m = a ++ m' /\ lang p' m'
  end.

End Re.

(* ================================================================== *)
(** * compare_benchmarks.py                                            *)
(* ================================================================== *)

(** [r'\| Runs.*?\n\|(.*?)\n\n'] *)
Definition table_re : Re.pattern :=
  [ Re.Lit (lit "| Runs"); Re.LazyAny; Re.Lit [nl; "|"%char];
    Re.LazyAny; Re.Lit [nl; nl] ].

(** A row of the results table: population, regions, seconds. *)
Definition bench_row : Type := (Z * Z * Q)%type.

(** The lines of the comparison report, with the numbers they show. *)
Inductive cline : Type :=
| CTitle
| CRule (c : ascii)
| CCase (name : str)
| CHeader
| CRow (pop reg : Z) (old_t new_t change pct_change : Q)
| CTotal (total_old total_new total_change total_pct : Q)
| COverall
| CTotalOld (t : Q)
| CTotalNew (t : Q)
| CTotalChange (change pct : Q).

Definition old_files : list str :=
  [ lit "run_stats\2025-10\66e7cdab-16\20251016_065917_styblinski_tang.md";
    lit "run_stats\2025-10\66e7cdab-16\20251016_070342_ackley.md";
    lit "run_stats\2025-10\66e7cdab-16\20251016_070817_himmelblau.md" ].

Definition new_files : list str :=
  [ lit "run_stats\2025-10\2a7273a6-16\20251016_074805_styblinski_tang.md";
    lit "run_stats\2025-10\2a7273a6-16\20251016_075235_ackley.md";
    lit "run_stats\2025-10\2a7273a6-16\20251016_075736_himmelblau.md" ].

Definition names : list str :=
  [ lit "Styblinski-Tang"; lit "Ackley"; lit "Himmelblau" ].

Section CompareBenchmarks.

(** The builtins [int(s)] and [float(s)] on a string: [None] stands for
    the [ValueError] of a string that is no number. *)
Variable py_int : str -> option Z.
Variable py_float : str -> option Q.

(** The files that exist, by path, with their text. *)
Variable fs : str -> option str.

Definition to_int (s : str) : result Z :=
  match py_int s with Some n => Ok n | None => Raise ValueError end.

Definition to_float (s : str) : result Q :=
  match py_float s with Some x => Ok x | None => Raise ValueError end.

(** [parts[i]] for a literal index [i >= 0]. *)
Definition field (parts : list str) (i : nat) : result str :=
  match nth_error parts i with
  | Some s => Ok s
  | None => Raise IndexError
  end.

(** The body of [for line in lines] (lines 14-19): the row to append,
    if any. *)
Definition parse_line (line : str) : result (option bench_row) :=
  let parts := split "|"%char line in
  if (9 <=? length parts)%nat then
    rbind (field parts 2) (fun p2 =>
    rbind (to_int (strip p2)) (fun pop =>
    rbind (field parts 3) (fun p3 =>
    rbind (to_int (strip p3)) (fun regions =>
    rbind (field parts 9) (fun p9 =>
    rbind (to_float (strip p9)) (fun time =>
    Ok (Some (pop, regions, time))))))))
  else Ok None.

(** The loop of lines 12-20, [times] being the rows appended so far. *)
Fixpoint parse_lines (lines : list str) (times : list bench_row)
  : result (list bench_row) :=
  match lines with
  | [] => Ok times
  | line :: lines' =>
      rbind (parse_line line) (fun r =>
        match r with
        | Some row => parse_lines lines' (times ++ [row])
        | None => parse_lines lines' times
        end)
  end.

(** [l[2:-2]] *)
Definition slice_2_m2 {A} (l : list A) : list A :=
  skipn 2 (firstn (length l - 2) l).

(** [parse_times] on the text of the file (lines 8-20). *)
Definition parse_content (content : str) : result (list bench_row) :=
  match Re.search table_re content with
  | None => Ok []
  | Some group0 =>
      let lines := slice_2_m2 (split nl group0) in
      parse_lines lines []
  end.

(** [parse_times(file_path)] *)
Definition parse_times (file_path : str) : result (list bench_row) :=
  match fs file_path with
  | None => Raise FileNotFoundError
  | Some content => parse_content content
  end.

(** [(change / base * 100) if base > 0 else 0]: the conditional
    expression of lines 56, 62 and 73. *)
Definition pct_of (change base : Q) : result Q :=
  if Qlt_le_dec 0 base then
    rbind (fdiv change base) (fun q => Ok (q * 100))
  else Ok 0.

(** The body of the loop over the paired rows (lines 55-59); the state
    is [(total_old, total_new)]. *)
Definition compare_row (totals : Q * Q) (rows : bench_row * bench_row)
  : IO cline (Q * Q) :=
  (let '((pop, reg, old_t), (_, _, new_t)) := rows in
   let change := new_t - old_t in
   pct_change <- lift (pct_of change old_t) ;;
   print (CRow pop reg old_t new_t change pct_change) ;;
   ret (fst totals + old_t, snd totals + new_t))%io.

Fixpoint compare_rows (pairs : list (bench_row * bench_row))
         (totals : Q * Q) : IO cline (Q * Q) :=
  match pairs with
  | [] => ret totals
  | rows :: pairs' =>
      bind (compare_row totals rows) (compare_rows pairs')
  end.

(** The body of the loop over the cases (lines 43-67); the state is
    [(grand_total_old, grand_total_new)]. *)
Definition compare_case (grand : Q * Q) (case : str * (str * str))
  : IO cline (Q * Q) :=
  (let '(name, (old_file, new_file)) := case in
   print (CCase name) ;;
   print (CRule "-"%char) ;;
   old_times <- lift (parse_times old_file) ;;
   new_times <- lift (parse_times new_file) ;;
   print CHeader ;;
   print (CRule "-"%char) ;;
   totals <- compare_rows (combine old_times new_times) (0, 0) ;;
   let total_old := fst totals in
   let total_new := snd totals in
   let total_change := total_new - total_old in
   total_pct <- lift (pct_of total_change total_old) ;;
   print (CRule "-"%char) ;;
   print (CTotal total_old total_new total_change total_pct) ;;
   ret (fst grand + total_old, snd grand + total_new))%io.

Fixpoint compare_cases (cases : list (str * (str * str)))
         (grand : Q * Q) : IO cline (Q * Q) :=
  match cases with
  | [] => ret grand
  | case :: cases' =>
      bind (compare_case grand case) (compare_cases cases')
  end.

(** The script, from line 36 on. *)
Definition main : IO cline unit :=
  (print CTitle ;;
   print (CRule "="%char) ;;
   grand <- compare_cases (combine names (combine old_files new_files))
                          (0, 0) ;;
   let grand_total_old := fst grand in
   let grand_total_new := snd grand in
   print (CRule "="%char) ;;
   print COverall ;;
   print (CRule "="%char) ;;
   let grand_change := grand_total_new - grand_total_old in
   grand_pct <- lift (pct_of grand_change grand_total_old) ;;
   print (CTotalOld grand_total_old) ;;
   print (CTotalNew grand_total_new) ;;
   print (CTotalChange grand_change grand_pct))%io.

End CompareBenchmarks.

(** A content has a results table when it holds, in this order, the text
    [| Runs], a line break followed by [|], and an empty line (two line
    breaks in a row). *)
Definition has_table (content : str) : Prop :=
  exists pre a b post,
    content = pre ++ lit "| Runs" ++ a ++ [nl; "|"%char] ++ b
                  ++ [nl; nl] ++ post.

(** Reference readers of decimal numbers, used to run the model on
    concrete tables.  They accept a part of what [int] and [float]
    accept: an optional sign and digits for [int]; an optional sign,
    digits and, optionally, a point and digits for [float]. *)
Definition digit_of (c : ascii) : option Z :=
  let n := nat_of_ascii c in
  if (48 <=? n)%nat && (n <=? 57)%nat then Some (Z.of_nat (n - 48)) else None.

Fixpoint digits_acc (s : str) (acc : Z) : option Z :=
  match s with
  | [] => Some acc
  | c :: s' =>
      match digit_of c with
      | Some d => digits_acc s' (10 * acc + d)
      | None => None
      end
  end.

Definition dec_nat (s : str) : option Z :=
  match s with
  | [] => None
  | _ :: _ => digits_acc s 0
  end.

Definition dec_int (s : str) : option Z :=
  match strip s with
  | "-"%char :: s' => option_map Z.opp (dec_nat s')
  | "+"%char :: s' => dec_nat s'
  | s' => dec_nat s'
  end.

Definition dec_unsigned_float (s : str) : option Q :=
  match split "."%char s with
  | [i] => option_map inject_Z (dec_nat i)
  | [i; f] =>
      match dec_nat i, dec_nat f with
      | Some a, Some b =>
          let scale := (10 ^ Z.of_nat (length f))%Z in
          Some (Qred (inject_Z (a * scale + b) / inject_Z scale))
      | _, _ => None
      end
  | _ => None
  end.

Definition dec_float (s : str) : option Q :=
  match strip s with
  | "-"%char :: s' => option_map Qopp (dec_unsigned_float s')
  | "+"%char :: s' => dec_unsigned_float s'
  | s' => dec_unsigned_float s'
  end.

(** ** Reference notions for the comparison *)

(** The percentage the report is to show for a change against a base:
    [100 * change / base] when the base is positive, 0 otherwise. *)
Definition guarded_pct (change base pct : Q) : Prop :=
  (0 < base -> pct == 100 * change / base) /\ (~ 0 < base -> pct == 0).

(** The line of a paired row. *)
Definition row_shown (rows : bench_row * bench_row) (l : cline) : Prop :=
  let '((pop, reg, old_t), (_, _, new_t)) := rows in
  exists pct,
    l = CRow pop reg old_t new_t (new_t - old_t) pct
    /\ guarded_pct (new_t - old_t) old_t pct.

Definition old_time (rows : bench_row * bench_row) : Q := snd (fst rows).
Definition new_time (rows : bench_row * bench_row) : Q := snd (snd rows).

(** The sum of a list of times, on top of a starting value. *)
Definition sumQ (l : list Q) (start : Q) : Q := fold_left Qplus l start.

(** A report whose table has seven columns: its data row splits into
    nine fields. *)
Definition seven_columns : str :=
  lit "| Runs | A | B | C | D | E | F |" ++ [nl]
  ++ lit "|------|---|---|---|---|---|---|" ++ [nl]
  ++ lit "| 1 | 100 | 5 | x | y | z | w |" ++ [nl; nl].

(** A report without a table, and a report with a table of two rows in
    the layout of the benchmark files (time in the ninth column). *)
Definition no_table_report : str := lit "# Benchmark" ++ [nl] ++ lit "no runs".

Definition two_rows_report : str :=
  lit "| Runs | Pop | Regions | A | B | C | D | E | Time |" ++ [nl]
  ++ lit "|------|-----|---------|---|---|---|---|---|------|" ++ [nl]
  ++ lit "| 1 | 100 | 5 | a | b | c | d | e | 1.0 |" ++ [nl]
  ++ lit "| 1 | 200 | 10 | a | b | c | d | e | 2.0 |" ++ [nl; nl].

(** A file system in which every path holds the same text. *)
Definition every_file (content : str) : str -> option str :=
  fun _ => Some content.

Fixpoint str_eqb (a b : str) : bool :=
  match a, b with
  | [], [] => true
  | x :: a', y :: b' => Ascii.eqb x y && str_eqb a' b'
  | _, _ => false
  end.

(** A file system with an old report that has no table and a new report
    that has two rows. *)
Definition old_without_table : str -> option str :=
  fun path =>
    if str_eqb path (lit "old.md") then Some no_table_report
    else if str_eqb path (lit "new.md") then Some two_rows_report
    else None.

(** ** Reference notions for the run of the comparison *)

Section CompareReference.

Variable py_int : str -> option Z.
Variable py_float : str -> option Q.
Variable fs : str -> option str.

(** The exception of the first file, in the order in which the script
    reads them (case by case, the old file before the new one), that
    [parse_times] does not read; [None] when it reads them all. *)
Fixpoint first_error (cases : list (str * (str * str))) : option exn :=
  match cases with
  | [] => None
  | (_, (old_file, new_file)) :: cases' =>
      match parse_times py_int py_float fs old_file with
      | Raise e => Some e
      | Ok _ =>
          match parse_times py_int py_float fs new_file with
          | Raise e => Some e
          | Ok _ => first_error cases'
          end
      end
  end.

(** The sums of the old and of the new times over the paired rows of a
    case whose two files are read. *)
Definition case_totals (case : str * (str * str)) : Q * Q :=
  match parse_times py_int py_float fs (fst (snd case)),
        parse_times py_int py_float fs (snd (snd case)) with
  | Ok old_times, Ok new_times =>
      (sumQ (map old_time (combine old_times new_times)) 0,
       sumQ (map new_time (combine old_times new_times)) 0)
  | _, _ => (0, 0)
  end.

Definition add_totals (grand : Q * Q) (case : str * (str * str)) : Q * Q :=
  (fst grand + fst (case_totals case), snd grand + snd (case_totals case)).

End CompareReference.

(* ================================================================== *)
(** * Facts about the counter                                          *)
(* ================================================================== *)

Module CounterFacts.
Import Counter.

Local Open Scope Z_scope.

Lemma get_incr (c : t) (k j : Z) :
  get (incr c k) j = get c j + hit j k.
Proof.
  unfold hit.
  induction c as [|[k' v] c IH]; simpl.
  - destruct (j =? k); reflexivity.
  - destruct (Z.eqb_spec k k') as [->|Hk]; simpl.
    + destruct (j =? k'); lia.
    + destruct (Z.eqb_spec j k') as [->|Hj].
      * destruct (Z.eqb_spec k' k); [congruence | lia].
      * exact IH.
Qed.

Lemma occ_app j ks1 ks2 : occ j (ks1 ++ ks2) = occ j ks1 + occ j ks2.
Proof. induction ks1; simpl; lia. Qed.

Lemma occ_nonneg j ks : 0 <= occ j ks.
Proof.
  induction ks as [|k ks IH]; simpl; unfold hit; [|destruct (j =? k)]; lia.
Qed.

Lemma occ_notin j ks : ~ In j ks -> occ j ks = 0.
Proof.
  induction ks as [|k ks IH]; simpl; intros H; [reflexivity|].
  unfold hit. destruct (Z.eqb_spec j k) as [->|_].
  - exfalso. apply H. now left.
  - apply IH. intros Hin. apply H. now right.
Qed.

Lemma occ_NoDup j ks :
  NoDup ks -> occ j ks = if existsb (Z.eqb j) ks then 1 else 0.
Proof.
  induction 1 as [|k ks Hk Hnd IH]; simpl; [reflexivity|].
  unfold hit. destruct (Z.eqb_spec j k) as [->|Hj]; simpl.
  - rewrite occ_notin by assumption. reflexivity.
  - exact IH.
Qed.

Lemma get_fold_incr (ks : list Z) (c : t) (j : Z) :
  get (fold_left incr ks c) j = get c j + occ j ks.
Proof.
  revert c. induction ks as [|k ks IH]; intros c; simpl.
  - lia.
  - rewrite IH, get_incr. lia.
Qed.

Lemma keys_incr (c : t) (k : Z) :
  keys (incr c k) = if existsb (Z.eqb k) (keys c) then keys c
                    else keys c ++ [k].
Proof.
  unfold keys. induction c as [|[k' v] c IH]; simpl; [reflexivity|].
  destruct (Z.eqb_spec k k') as [->|Hk]; simpl; [reflexivity|].
  rewrite IH. destruct (existsb (Z.eqb k) (map fst c)); reflexivity.
Qed.

Lemma sum_from (l : list Z) (a : Z) : fold_left Z.add l a = a + sum l.
Proof.
  unfold sum. revert a. induction l as [|x l IH]; intros a; simpl.
  - lia.
  - rewrite IH, (IH x). lia.
Qed.

Lemma sum_cons x l : sum (x :: l) = x + sum l.
Proof. unfold sum at 1. simpl. apply sum_from. Qed.

Lemma sum_app l1 l2 : sum (l1 ++ l2) = sum l1 + sum l2.
Proof.
  induction l1 as [|x l1 IH]; simpl; [reflexivity|].
  rewrite !sum_cons, IH. lia.
Qed.

Lemma sum_values_incr (c : t) (k : Z) :
  sum (values (incr c k)) = sum (values c) + 1.
Proof.
  unfold values. induction c as [|[k' v] c IH]; simpl; [reflexivity|].
  destruct (k =? k'); simpl; rewrite !sum_cons; simpl; lia.
Qed.

Lemma sum_values_fold_incr (ks : list Z) (c : t) :
  sum (values (fold_left incr ks c)) = sum (values c) + Z.of_nat (length ks).
Proof.
  revert c. induction ks as [|k ks IH]; intros c.
  - simpl. lia.
  - cbn [fold_left length]. rewrite IH, sum_values_incr. lia.
Qed.

Lemma positive_incr c k : positive c -> positive (incr c k).
Proof.
  unfold positive. induction 1 as [|[k' v] c Hv Hc IH]; simpl.
  - repeat constructor. simpl. lia.
  - destruct (k =? k'); constructor; simpl in *; try lia; assumption.
Qed.

Lemma positive_fold_incr ks c : positive c -> positive (fold_left incr ks c).
Proof.
  revert c. induction ks as [|k ks IH]; intros c Hc; simpl; [assumption|].
  apply IH, positive_incr, Hc.
Qed.

Lemma get_nonneg c k : positive c -> 0 <= get c k.
Proof.
  induction 1 as [|[k' v] c Hv Hc IH]; simpl; [lia|].
  destruct (k =? k'); simpl in *; lia.
Qed.

End CounterFacts.

(* ================================================================== *)
(** * analyze_profiles.py: the accumulation loop                       *)
(* ================================================================== *)

Section Accumulation.

Context {PS : PySet}.
Import Counter CounterFacts.
Local Open Scope Z_scope.

Lemma count_stack_keys (c : counts) (stack : list Z) :
  total_samples (count_stack c stack) = total_samples c /\
  exclusive_counter (count_stack c stack)
    = fold_left incr (leaf_keys stack) (exclusive_counter c) /\
  inclusive_counter (count_stack c stack)
    = fold_left incr (set_keys stack) (inclusive_counter c).
Proof. destruct stack; simpl; auto. Qed.

Lemma fold_count_stack (ss : list (list Z)) (c : counts) :
  total_samples (fold_left count_stack ss c) = total_samples c /\
  exclusive_counter (fold_left count_stack ss c)
    = fold_left incr (flat_map leaf_keys ss) (exclusive_counter c) /\
  inclusive_counter (fold_left count_stack ss c)
    = fold_left incr (flat_map set_keys ss) (inclusive_counter c).
Proof.
  revert c. induction ss as [|s ss IH]; intros c.
  - simpl. auto.
  - cbn [fold_left flat_map]. rewrite !fold_left_app.
    destruct (IH (count_stack c s)) as (Ht & He & Hi).
    destruct (count_stack_keys c s) as (Ht' & He' & Hi').
    rewrite Ht, He, Hi, Ht', He', Hi'. auto.
Qed.

Lemma fold_count_profile (ps : list (list (list Z))) (c : counts) :
  total_samples (fold_left count_profile ps c)
    = total_samples c
      + sum (map (fun samples => Z.of_nat (length samples)) ps) /\
  exclusive_counter (fold_left count_profile ps c)
    = fold_left incr (flat_map leaf_keys (concat ps)) (exclusive_counter c) /\
  inclusive_counter (fold_left count_profile ps c)
    = fold_left incr (flat_map set_keys (concat ps)) (inclusive_counter c).
Proof.
  revert c. induction ps as [|p ps IH]; intros c.
  - simpl. unfold sum. simpl. repeat split. lia.
  - cbn [fold_left concat map]. rewrite !flat_map_app, !fold_left_app.
    destruct (IH (count_profile c p)) as (Ht & He & Hi).
    unfold count_profile in *.
    match goal with
    | |- context [fold_left count_stack p ?c0] =>
        destruct (fold_count_stack p c0) as (Ht' & He' & Hi')
    end.
    rewrite Ht, He, Hi, Ht', He', Hi'.
    cbn [total_samples exclusive_counter inclusive_counter].
    rewrite sum_cons. repeat split. lia.
Qed.

Lemma accumulate_total (d : profile_data) :
  total_samples (accumulate d)
  = sum (map (fun samples => Z.of_nat (length samples)) (profiles d)).
Proof.
  unfold accumulate.
  destruct (fold_count_profile (profiles d) counts0) as (Ht & _).
  rewrite Ht. simpl. reflexivity.
Qed.

Lemma accumulate_exclusive (d : profile_data) :
  exclusive_counter (accumulate d)
  = fold_left incr (exclusive_events d) empty.
Proof.
  unfold accumulate, exclusive_events, all_samples.
  destruct (fold_count_profile (profiles d) counts0) as (_ & He & _).
  exact He.
Qed.

Lemma accumulate_inclusive (d : profile_data) :
  inclusive_counter (accumulate d)
  = fold_left incr (inclusive_events d) empty.
Proof.
  unfold accumulate, inclusive_events, all_samples.
  destruct (fold_count_profile (profiles d) counts0) as (_ & _ & Hi).
  exact Hi.
Qed.

Lemma total_is_length (d : profile_data) :
  total_samples (accumulate d) = Z.of_nat (length (all_samples d)).
Proof.
  rewrite accumulate_total. unfold all_samples.
  induction (profiles d) as [|p ps IH]; simpl; [reflexivity|].
  rewrite sum_cons, IH, length_app. lia.
Qed.

(** ** Counting occurrences in the events *)

Lemma occ_flat_map (k : Z) (f : list Z -> list Z) (g : list Z -> bool)
      (ss : list (list Z)) :
  (forall s, occ k (f s) = if g s then 1 else 0) ->
  occ k (flat_map f ss) = count_if g ss.
Proof.
  intros Hfg. unfold count_if.
  induction ss as [|s ss IH]; simpl; [reflexivity|].
  rewrite occ_app, IH, Hfg.
  destruct (g s); simpl length; lia.
Qed.

Lemma occ_leaf_keys (k : Z) (s : list Z) :
  occ k (leaf_keys s) = if is_leaf k s then 1 else 0.
Proof.
  destruct s as [|x s]; [reflexivity|].
  unfold leaf_keys, is_leaf. cbn [occ]. unfold hit.
  rewrite Z.eqb_sym. destruct (_ =? _); lia.
Qed.

Lemma mem_set_iter (k : Z) (s : list Z) :
  existsb (Z.eqb k) (set_iter s) = mem k s.
Proof.
  unfold mem. apply eq_true_iff_eq.
  rewrite !existsb_exists. split; intros (x & Hin & Hx); exists x; split;
    try assumption; now apply set_iter_In.
Qed.

Lemma occ_set_keys (k : Z) (s : list Z) :
  occ k (set_keys s) = if mem k s then 1 else 0.
Proof.
  destruct s as [|x s]; [reflexivity|].
  unfold set_keys. rewrite occ_NoDup by apply set_iter_NoDup.
  rewrite mem_set_iter. reflexivity.
Qed.

Lemma exclusive_get (d : profile_data) (k : Z) :
  get (exclusive_counter (accumulate d)) k
  = count_if (is_leaf k) (all_samples d).
Proof.
  rewrite accumulate_exclusive, get_fold_incr. simpl.
  apply occ_flat_map, occ_leaf_keys.
Qed.

Lemma inclusive_get (d : profile_data) (k : Z) :
  get (inclusive_counter (accumulate d)) k
  = count_if (mem k) (all_samples d).
Proof.
  rewrite accumulate_inclusive, get_fold_incr. simpl.
  apply occ_flat_map, occ_set_keys.
Qed.

Lemma is_leaf_mem (k : Z) (s : list Z) : is_leaf k s = true -> mem k s = true.
Proof.
  destruct s as [|x s]; [discriminate|].
  unfold is_leaf, mem. intros H%Z.eqb_eq.
  apply existsb_exists. exists k. split; [|apply Z.eqb_refl].
  rewrite <- H.
  clear H. revert x. induction s as [|y s IH]; intros x.
  - now left.
  - right. apply (IH y).
Qed.

Lemma count_if_le {A} (f g : A -> bool) (l : list A) :
  (forall x, f x = true -> g x = true) -> count_if f l <= count_if g l.
Proof.
  intros Hfg. unfold count_if.
  induction l as [|x l IH]; simpl; [lia|].
  destruct (f x) eqn:Hf.
  - rewrite (Hfg x Hf). simpl length. lia.
  - destruct (g x); simpl length; lia.
Qed.

End Accumulation.

(* ================================================================== *)
(** * analyze_profiles.py: the counts                                  *)
(* ================================================================== *)

Section Counts.

Context {PS : PySet}.
Import Counter CounterFacts.
Local Open Scope Z_scope.

Lemma leaf_keys_length (ss : list (list Z)) :
  Z.of_nat (length (flat_map leaf_keys ss))
  = Z.of_nat (length ss) - count_if is_empty ss.
Proof.
  unfold count_if.
  induction ss as [|s ss IH]; [reflexivity|].
  cbn [flat_map filter]. rewrite length_app.
  destruct s as [|x s]; cbn [leaf_keys is_empty length]; lia.
Qed.

Lemma flat_map_drop_empty (f : list Z -> list Z) (ps : list (list (list Z))) :
  f [] = [] ->
  flat_map f (concat (map (filter (fun s => negb (is_empty s))) ps))
  = flat_map f (concat ps).
Proof.
  intros Hf. induction ps as [|p ps IH]; simpl; [reflexivity|].
  rewrite !flat_map_app, IH. f_equal.
  clear IH. induction p as [|s p IHp]; simpl; [reflexivity|].
  destruct s as [|x s]; simpl.
  - rewrite Hf. exact IHp.
  - rewrite IHp. reflexivity.
Qed.

Lemma count_empty_drop_empty (ps : list (list (list Z))) :
  sum (map (fun samples => Z.of_nat (length samples)) ps)
  = sum (map (fun samples => Z.of_nat (length samples))
             (map (filter (fun s => negb (is_empty s))) ps))
    + count_if is_empty (concat ps).
Proof.
  unfold count_if.
  induction ps as [|p ps IH]; [reflexivity|].
  cbn [map concat]. rewrite !sum_cons, IH, filter_app, length_app.
  enough (Z.of_nat (length p)
          = Z.of_nat (length (filter (fun s => negb (is_empty s)) p))
            + Z.of_nat (length (filter is_empty p))) by lia.
  clear IH. induction p as [|s p IHp]; [reflexivity|].
  cbn [filter]. destruct s; cbn [is_empty negb length]; lia.
Qed.

(** C1: the inclusive count of a frame index is the number of samples
    whose stack holds that index; a sample adds exactly 1 to the count
    of an index that is in its stack, however often it is there, and 0
    to the count of any other index. *)
Theorem inclusive_count_is_samples_containing (d : profile_data) (k : Z) :
  get (inclusive_counter (accumulate d)) k
  = count_if (mem k) (all_samples d)
  /\ (forall (c : counts) (stack : list Z) (j : Z),
         get (inclusive_counter (count_stack c stack)) j
         = get (inclusive_counter c) j + (if mem j stack then 1 else 0)).
Proof.
  split.
  - apply inclusive_get.
  - intros c stack j.
    destruct (count_stack_keys c stack) as (_ & _ & Hi).
    rewrite Hi, get_fold_incr, occ_set_keys. reflexivity.
Qed.

(** C2: a non-empty sample adds 1 to the exclusive count of its last
    frame index and leaves every other exclusive count as it was; the
    exclusive counts of all frame indices add up to [total_samples]
    less the number of samples with an empty stack. *)
Theorem exclusive_counts_leaves (d : profile_data) :
  (forall (c : counts) (x : Z) (stack : list Z) (j : Z),
      get (exclusive_counter (count_stack c (x :: stack))) j
      = get (exclusive_counter c) j + hit j (last (x :: stack) 0))
  /\ (forall k : Z,
         get (exclusive_counter (accumulate d)) k
         = count_if (is_leaf k) (all_samples d))
  /\ sum (values (exclusive_counter (accumulate d)))
     = total_samples (accumulate d) - count_if is_empty (all_samples d).
Proof.
  split; [|split].
  - intros c x stack j.
    destruct (count_stack_keys c (x :: stack)) as (_ & He & _).
    rewrite He. cbn [leaf_keys fold_left]. apply get_incr.
  - apply exclusive_get.
  - rewrite accumulate_exclusive, sum_values_fold_incr, total_is_length.
    unfold exclusive_events. rewrite leaf_keys_length.
    unfold values, empty, sum. simpl. lia.
Qed.

(** C3: [total_samples] is the sum of the lengths of the sample lists
    of all profiles, the samples with an empty stack included; a sample
    with an empty stack changes neither counter, so both counters are
    those of the document without its empty stacks. *)
Theorem total_counts_every_sample (d : profile_data) :
  total_samples (accumulate d)
  = sum (map (fun samples => Z.of_nat (length samples)) (profiles d))
  /\ total_samples (accumulate d)
     = total_samples (accumulate (drop_empty d))
       + count_if is_empty (all_samples d)
  /\ (forall c : counts, count_stack c [] = c)
  /\ exclusive_counter (accumulate d)
     = exclusive_counter (accumulate (drop_empty d))
  /\ inclusive_counter (accumulate d)
     = inclusive_counter (accumulate (drop_empty d)).
Proof.
  split; [|split; [|split; [|split]]].
  - apply accumulate_total.
  - rewrite !accumulate_total. unfold all_samples, drop_empty.
    cbn [profiles]. apply count_empty_drop_empty.
  - intros c. reflexivity.
  - rewrite !accumulate_exclusive. unfold exclusive_events, all_samples.
    unfold drop_empty. cbn [profiles].
    rewrite flat_map_drop_empty by reflexivity. reflexivity.
  - rewrite !accumulate_inclusive. unfold inclusive_events, all_samples.
    unfold drop_empty. cbn [profiles].
    rewrite flat_map_drop_empty by reflexivity. reflexivity.
Qed.

(** C9: after the accumulation the exclusive count of every frame index
    is at most its inclusive count. *)
Theorem exclusive_le_inclusive (d : profile_data) (k : Z) :
  get (exclusive_counter (accumulate d)) k
  <= get (inclusive_counter (accumulate d)) k.
Proof.
  rewrite exclusive_get, inclusive_get.
  apply count_if_le. intros s. apply is_leaf_mem.
Qed.

End Counts.

(* ================================================================== *)
(** * analyze_profiles.py: the ranking of [most_common]                *)
(* ================================================================== *)

Section Ranking.

Import Counter CounterFacts.
Local Open Scope Z_scope.

Lemma insert_desc_Forall (P : Z * Z -> Prop) x l :
  P x -> Forall P l -> Forall P (insert_desc x l).
Proof.
  intros Hx. induction 1 as [|y l Hy Hl IH]; simpl.
  - constructor; [assumption | constructor].
  - destruct (snd y <=? snd x); repeat constructor; assumption.
Qed.

Lemma insert_desc_sorted x l :
  StronglySorted count_ge l -> StronglySorted count_ge (insert_desc x l).
Proof.
  induction 1 as [|y l Hl IH Hy]; simpl.
  - repeat constructor.
  - destruct (Z.leb_spec (snd y) (snd x)) as [Hle|Hlt].
    + constructor; [constructor; assumption|].
      constructor; [exact Hle|].
      eapply Forall_impl; [|exact Hy].
      intros z Hz. unfold count_ge in *. lia.
    + constructor; [exact IH|].
      apply insert_desc_Forall; [unfold count_ge; lia | exact Hy].
Qed.

Lemma sorted_desc_sorted l : StronglySorted count_ge (sorted_desc l).
Proof.
  unfold sorted_desc. induction l as [|x l IH]; simpl.
  - constructor.
  - apply insert_desc_sorted, IH.
Qed.

(** Stability: the items with a given count keep their order. *)
Lemma insert_desc_filter (n : Z) x l :
  StronglySorted count_ge l ->
  filter (fun p => snd p =? n) (insert_desc x l)
  = filter (fun p => snd p =? n) (x :: l).
Proof.
  induction 1 as [|y l Hl IH Hy]; [reflexivity|].
  cbn [insert_desc]. destruct (Z.leb_spec (snd y) (snd x)) as [Hle|Hlt].
  - reflexivity.
  - cbn [filter] in *. rewrite IH.
    destruct (Z.eqb_spec (snd x) n) as [Hx|Hx];
      destruct (Z.eqb_spec (snd y) n) as [Hy'|Hy']; try reflexivity.
    lia.
Qed.

Lemma sorted_desc_stable (n : Z) l :
  filter (fun p => snd p =? n) (sorted_desc l)
  = filter (fun p => snd p =? n) l.
Proof.
  induction l as [|x l IH]; [reflexivity|].
  change (sorted_desc (x :: l)) with (insert_desc x (sorted_desc l)).
  rewrite insert_desc_filter by apply sorted_desc_sorted.
  cbn [filter]. rewrite IH. reflexivity.
Qed.

(** ** Positions *)

Lemma nth_error_firstn_Some {A} (n i : nat) (l : list A) (a : A) :
  nth_error (firstn n l) i = Some a -> nth_error l i = Some a.
Proof.
  revert i l. induction n as [|n IH]; intros i l H.
  - destruct i; discriminate.
  - destruct l as [|x l]; [destruct i; discriminate|].
    destruct i as [|i]; simpl in *; [assumption | now apply IH].
Qed.

Lemma nth_error_before {A} (l : list A) (i j : nat) (a b : A) :
  (i < j)%nat -> nth_error l i = Some a -> nth_error l j = Some b ->
  before a b l.
Proof.
  intros Hij Hi Hj.
  destruct (nth_error_split l j Hj) as (la & l3 & -> & Hlen).
  rewrite nth_error_app1 in Hi by lia.
  destruct (nth_error_split la i Hi) as (l1 & l2 & -> & _).
  exists l1, l2, l3. rewrite <- app_assoc. reflexivity.
Qed.

Lemma sorted_before (l : list (Z * Z)) (a b : Z * Z) :
  StronglySorted count_ge l -> before a b l -> count_ge a b.
Proof.
  intros Hs (l1 & l2 & l3 & ->).
  induction l1 as [|x l1 IH]; simpl in Hs.
  - apply StronglySorted_inv in Hs. destruct Hs as [_ Hall].
    rewrite Forall_forall in Hall. apply Hall.
    apply in_or_app. right. now left.
  - apply StronglySorted_inv in Hs. apply IH, Hs.
Qed.

Lemma before_filter {A} (f : A -> bool) (a b : A) (l : list A) :
  f a = true -> f b = true -> before a b l -> before a b (filter f l).
Proof.
  intros Ha Hb (l1 & l2 & l3 & ->).
  exists (filter f l1), (filter f l2), (filter f l3).
  rewrite filter_app. cbn [filter]. rewrite Ha, filter_app.
  cbn [filter]. rewrite Hb. reflexivity.
Qed.

Lemma filter_eq_cons {A} (f : A -> bool) (l m1 m2 : list A) (a : A) :
  filter f l = m1 ++ a :: m2 ->
  exists l1 l2, l = l1 ++ a :: l2 /\ filter f l2 = m2.
Proof.
  revert m1. induction l as [|x l IH]; intros m1 H.
  - destruct m1; discriminate.
  - cbn [filter] in H. destruct (f x) eqn:Hfx.
    + destruct m1 as [|y m1]; simpl in H.
      * injection H as -> Hm. exists [], l. split; [reflexivity | exact Hm].
      * injection H as _ Hm. destruct (IH m1 Hm) as (l1 & l2 & -> & Hl2).
        exists (x :: l1), l2. split; [reflexivity | exact Hl2].
    + destruct (IH m1 H) as (l1 & l2 & -> & Hl2).
      exists (x :: l1), l2. split; [reflexivity | exact Hl2].
Qed.

Lemma before_of_filter {A} (f : A -> bool) (a b : A) (l : list A) :
  before a b (filter f l) -> before a b l.
Proof.
  intros (m1 & m2 & m3 & H).
  destruct (filter_eq_cons f l m1 _ _ H) as (l1 & la & -> & Hla).
  destruct (filter_eq_cons f la m2 _ _ Hla) as (l2 & l3 & -> & _).
  exists l1, l2, l3. reflexivity.
Qed.

Lemma before_map {A B} (f : A -> B) (a b : A) (l : list A) :
  before a b l -> before (f a) (f b) (map f l).
Proof.
  intros (l1 & l2 & l3 & ->). exists (map f l1), (map f l2), (map f l3).
  rewrite map_app. cbn [map]. rewrite map_app. reflexivity.
Qed.

(** ** The keys of a counter are in the order of their first increment *)

Lemma keys_fold_incr (evs : list Z) (c : t) :
  keys (fold_left incr evs c) = fold_left add_key evs (keys c).
Proof.
  revert c. induction evs as [|e evs IH]; intros c; simpl; [reflexivity|].
  rewrite IH, keys_incr. reflexivity.
Qed.

Lemma first_index_In (k : Z) (evs : list Z) :
  In k evs -> exists a, first_index k evs = Some a.
Proof.
  induction evs as [|e evs IH]; intros Hin; [destruct Hin|].
  simpl. destruct (e =? k) eqn:He; [now exists O|].
  destruct Hin as [->|Hin]; [rewrite Z.eqb_refl in He; discriminate|].
  destruct (IH Hin) as (a & ->). now exists (S a).
Qed.

Lemma first_seen (evs : list Z) (ks0 : list Z) :
  exists new,
    fold_left add_key evs ks0 = ks0 ++ new
    /\ (forall x, In x new -> In x evs /\ ~ In x ks0)
    /\ (forall k1 k2, before k1 k2 new -> earlier k1 k2 evs).
Proof.
  revert ks0. induction evs as [|e evs IH]; intros ks0.
  - exists []. simpl. rewrite app_nil_r. split; [reflexivity|]. split.
    + intros x [].
    + intros k1 k2 (l1 & l2 & l3 & H). destruct l1; discriminate.
  - cbn [fold_left]. unfold add_key at 2.
    destruct (existsb (Z.eqb e) ks0) eqn:Hmem.
    + destruct (IH ks0) as (new & Heq & Hnew & Hord).
      apply existsb_exists in Hmem. destruct Hmem as (e' & He' & Hee).
      apply Z.eqb_eq in Hee. subst e'.
      assert (Hne : forall x, In x new -> (e =? x) = false).
      { intros x Hx. apply Z.eqb_neq. intros ->.
        now apply (proj2 (Hnew x Hx)). }
      exists new. split; [exact Heq|]. split.
      * intros x Hx. destruct (Hnew x Hx). split; [now right | assumption].
      * intros k1 k2 Hb. destruct (Hord k1 k2 Hb) as (a & b & Ha & Hb' & Hab).
        assert (In k1 new /\ In k2 new) as [Hk1 Hk2].
        { destruct Hb as (l1 & l2 & l3 & ->). split.
          - apply in_or_app. right. now left.
          - apply in_or_app. right. right. apply in_or_app. right. now left. }
        exists (S a), (S b). simpl.
        rewrite (Hne k1 Hk1), (Hne k2 Hk2), Ha, Hb'.
        repeat split. lia.
    + destruct (IH (ks0 ++ [e])) as (new & Heq & Hnew & Hord).
      assert (Hnot : ~ In e ks0).
      { intros Hin. apply Bool.not_true_iff_false in Hmem. apply Hmem.
        apply existsb_exists. exists e.
        split; [assumption | apply Z.eqb_refl]. }
      assert (Hne : forall x, In x new -> (e =? x) = false).
      { intros x Hx. apply Z.eqb_neq. intros ->.
        apply (proj2 (Hnew x Hx)). apply in_or_app. right. now left. }
      exists (e :: new). split; [rewrite Heq, <- app_assoc; reflexivity|].
      split.
      * intros x [<-|Hx].
        -- split; [now left | exact Hnot].
        -- destruct (Hnew x Hx) as [Hin Hnin]. split; [now right|].
           intros Hin0. apply Hnin, in_or_app. now left.
      * intros k1 k2 (l1 & l2 & l3 & Hsplit).
        destruct l1 as [|x l1]; simpl in Hsplit; injection Hsplit as Hx Hrest.
        -- subst k1. subst new.
           assert (Hk2 : In k2 (l2 ++ k2 :: l3))
             by (apply in_or_app; right; now left).
           destruct (first_index_In k2 evs (proj1 (Hnew k2 Hk2))) as (b & Hb).
           exists O, (S b). simpl. rewrite Z.eqb_refl, (Hne k2 Hk2), Hb.
           repeat split. lia.
        -- subst x.
           assert (Hb : before k1 k2 new) by (exists l1, l2, l3; exact Hrest).
           destruct (Hord k1 k2 Hb) as (a & b & Ha & Hb' & Hab).
           assert (In k1 new /\ In k2 new) as [Hk1 Hk2].
           { subst new. split.
             - apply in_or_app. right. now left.
             - apply in_or_app. right. right. apply in_or_app. right.
               now left. }
           exists (S a), (S b). simpl.
           rewrite (Hne k1 Hk1), (Hne k2 Hk2), Ha, Hb'.
           repeat split. lia.
Qed.

Lemma keys_in_first_increment_order (evs : list Z) (k1 k2 : Z) :
  before k1 k2 (keys (fold_left incr evs empty)) -> earlier k1 k2 evs.
Proof.
  rewrite keys_fold_incr. simpl.
  destruct (first_seen evs []) as (new & Heq & _ & Hord).
  rewrite Heq. simpl. apply Hord.
Qed.

(** The ranking of [most_common] on a counter built from [evs]. *)
Lemma most_common_order (n : nat) (evs : list Z) (i j : nat)
      (k1 n1 k2 n2 : Z) :
  (i < j)%nat ->
  nth_error (most_common n (fold_left incr evs empty)) i = Some (k1, n1) ->
  nth_error (most_common n (fold_left incr evs empty)) j = Some (k2, n2) ->
  n2 <= n1 /\ (n1 = n2 -> earlier k1 k2 evs).
Proof.
  intros Hij Hi Hj. unfold most_common in *.
  apply nth_error_firstn_Some in Hi, Hj.
  pose proof (nth_error_before _ _ _ _ _ Hij Hi Hj) as Hb.
  split.
  - exact (sorted_before _ _ _ (sorted_desc_sorted _) Hb).
  - intros ->.
    apply keys_in_first_increment_order.
    apply (before_map fst (k1, n2) (k2, n2)).
    apply (before_of_filter (fun p => snd p =? n2)).
    rewrite <- sorted_desc_stable.
    apply before_filter; [apply Z.eqb_refl | apply Z.eqb_refl | exact Hb].
Qed.

End Ranking.

(* ================================================================== *)
(** * Facts about strings                                              *)
(* ================================================================== *)

Section Strings.

Lemma startswith_iff (p s : str) :
  startswith p s = true <-> exists post, s = p ++ post.
Proof.
  revert s. induction p as [|a p IH]; intros s; simpl.
  - split; [intros _; now exists s | reflexivity].
  - destruct s as [|b s].
    + split; [discriminate | intros (post & H); discriminate].
    + rewrite andb_true_iff, IH. split.
      * intros [Hab (post & ->)]. apply Ascii.eqb_eq in Hab. subst b.
        now exists post.
      * intros (post & H). injection H as -> ->.
        split; [apply Ascii.eqb_refl | now exists post].
Qed.

Lemma contains_iff (needle hay : str) :
  contains needle hay = true <-> exists pre post, hay = pre ++ needle ++ post.
Proof.
  induction hay as [|c hay IH]; simpl.
  - rewrite orb_false_r, startswith_iff. split.
    + intros (post & H). now exists [], post.
    + intros (pre & post & H). destruct pre; [now exists post|discriminate].
  - rewrite orb_true_iff, startswith_iff, IH. split.
    + intros [(post & H)|(pre & post & ->)].
      * now exists [], post.
      * now exists (c :: pre), post.
    + intros (pre & post & H). destruct pre as [|c' pre]; simpl in H.
      * left. now exists post.
      * right. injection H as _ ->. now exists pre, post.
Qed.

(** Lowering identifies exactly the characters that are the same up to
    case. *)
Lemma lower_char_eq_iff (a b : ascii) :
  lower_char a = lower_char b <-> same_letter a b.
Proof.
  pose proof (nat_ascii_bounded a) as Ha.
  pose proof (nat_ascii_bounded b) as Hb.
  pose proof (ascii_nat_embedding a) as Ea.
  pose proof (ascii_nat_embedding b) as Eb.
  unfold same_letter, small_of, is_capital, lower_char. cbv zeta.
  set (n := nat_of_ascii a) in *. set (m := nat_of_ascii b) in *.
  assert (Hinj : a = b <-> n = m).
  { split; [intros ->; reflexivity | intros H].
    rewrite <- Ea, <- Eb. now rewrite H. }
  assert (Hcode : forall x y, (x < 256)%nat -> (y < 256)%nat ->
                              (ascii_of_nat x = ascii_of_nat y <-> x = y)).
  { intros x y Hx Hy. split; [intros H | intros ->; reflexivity].
    rewrite <- (nat_ascii_embedding x Hx), <- (nat_ascii_embedding y Hy).
    now rewrite H. }
  rewrite Hinj.
  destruct (Nat.leb_spec 65 n), (Nat.leb_spec n 90),
           (Nat.leb_spec 192 n), (Nat.leb_spec n 214),
           (Nat.leb_spec 216 n), (Nat.leb_spec n 222);
    cbn [andb orb]; try lia;
    destruct (Nat.leb_spec 65 m), (Nat.leb_spec m 90),
             (Nat.leb_spec 192 m), (Nat.leb_spec m 214),
             (Nat.leb_spec 216 m), (Nat.leb_spec m 222);
    cbn [andb orb]; try lia;
    try (rewrite Hcode by lia; lia);
    try (rewrite <- Eb at 1; rewrite Hcode by lia; lia);
    try (rewrite <- Ea at 1; rewrite Hcode by lia; lia);
    try (rewrite Hinj; lia).
Qed.

Lemma lower_same_letters (t mid : str) :
  lower mid = lower t <-> Forall2 same_letter t mid.
Proof.
  unfold lower. revert mid. induction t as [|a t IH]; intros mid.
  - destruct mid; simpl; split; intros H; try constructor;
      try discriminate; inversion H.
  - destruct mid as [|b mid]; simpl.
    + split; intros H; [discriminate | inversion H].
    + split.
      * intros H. injection H as Hab Hrest. constructor.
        -- apply lower_char_eq_iff. now symmetry.
        -- now apply IH.
      * intros H. inversion H as [|? ? ? ? Hab Hrest]; subst.
        apply lower_char_eq_iff in Hab. rewrite Hab. f_equal. now apply IH.
Qed.

(** The test of line 58 is the case-insensitive substring test. *)
Lemma contains_lower_iff (t name : str) :
  contains (lower t) (lower name) = true <-> ci_substring t name.
Proof.
  rewrite contains_iff. unfold ci_substring. split.
  - intros (pre & post & H). unfold lower in H.
    apply map_eq_app in H. destruct H as (pre' & rest & -> & Hpre & H).
    apply map_eq_app in H. destruct H as (mid & post' & -> & Hmid & Hpost).
    exists pre', mid, post'. split; [reflexivity|].
    now apply lower_same_letters.
  - intros (pre & mid & post & -> & H).
    exists (lower pre), (lower post). unfold lower in *.
    rewrite !map_app. apply lower_same_letters in H. unfold lower in H.
    rewrite H. reflexivity.
Qed.

Lemma enumerate_from_In {A} (i idx : Z) (l : list A) (a : A) :
  In (idx, a) (enumerate_from i l) <->
  (i <= idx)%Z /\ nth_error l (Z.to_nat (idx - i)) = Some a.
Proof.
  revert i. induction l as [|x l IH]; intros i; simpl.
  - split; [intros [] | intros [_ H]].
    destruct (Z.to_nat (idx - i)); discriminate.
  - rewrite IH. split.
    + intros [H|[Hle Hn]].
      * injection H as -> ->. split; [lia|].
        replace (idx - idx)%Z with 0%Z by lia. reflexivity.
      * split; [lia|].
        replace (idx - i)%Z with (Z.succ (idx - (i + 1)))%Z by lia.
        rewrite Z2Nat.inj_succ by lia. exact Hn.
    + intros [Hle Hn]. destruct (Z.eq_dec i idx) as [->|Hne].
      * left. replace (idx - idx)%Z with 0%Z in Hn by lia.
        simpl in Hn. now injection Hn as ->.
      * right. split; [lia|].
        replace (idx - i)%Z with (Z.succ (idx - (i + 1)))%Z in Hn by lia.
        rewrite Z2Nat.inj_succ in Hn by lia. exact Hn.
Qed.

Lemma enumerate_from_NoDup {A} (i : Z) (l : list A) :
  NoDup (map fst (enumerate_from i l)).
Proof.
  revert i. induction l as [|x l IH]; intros i; simpl; constructor.
  - intros Hin. apply in_map_iff in Hin. destruct Hin as ([j a] & Hj & Hin).
    simpl in Hj. subst j. apply enumerate_from_In in Hin. lia.
  - apply IH.
Qed.

Lemma NoDup_map_filter {A B} (f : A -> B) (g : A -> bool) (l : list A) :
  NoDup (map f l) -> NoDup (map f (filter g l)).
Proof.
  induction l as [|x l IH]; simpl; intros H; [constructor|].
  inversion H as [|? ? Hnin Hnd]; subst.
  destruct (g x); simpl; [constructor|]; auto.
  intros Hin. apply Hnin. apply in_map_iff in Hin.
  destruct Hin as (y & Hy & Hin). apply filter_In in Hin.
  apply in_map_iff. exists y. tauto.
Qed.

End Strings.

(* ================================================================== *)
(** * analyze_profiles.py: the report                                  *)
(* ================================================================== *)

Section Report.

Context {PS : PySet}.
Import Counter CounterFacts.
Local Open Scope Z_scope.

Lemma counter_of_events (which : listing) (d : profile_data) :
  counter_of which (accumulate d)
  = fold_left incr (events_of which d) empty.
Proof.
  destruct which; [apply accumulate_exclusive | apply accumulate_inclusive].
Qed.

(** C5: both top-20 listings are in descending order of count, and of
    two entries with the same count the one whose key was incremented
    first comes first, the counter being the result of incrementing the
    keys of [events_of] one after the other; a listing has at most 20
    entries. *)
Theorem top20_order (d : profile_data) (which : listing) (i j : nat)
        (k1 n1 k2 n2 : Z) :
  (i < j)%nat ->
  nth_error (most_common 20 (counter_of which (accumulate d))) i
    = Some (k1, n1) ->
  nth_error (most_common 20 (counter_of which (accumulate d))) j
    = Some (k2, n2) ->
  n2 <= n1
  /\ (n1 = n2 -> earlier k1 k2 (events_of which d))
  /\ counter_of which (accumulate d)
     = fold_left incr (events_of which d) empty
  /\ (length (most_common 20 (counter_of which (accumulate d))) <= 20)%nat.
Proof.
  intros Hij Hi Hj. rewrite counter_of_events in *.
  destruct (most_common_order _ _ _ _ _ _ _ _ Hij Hi Hj) as [Hle Hties].
  repeat split; try assumption.
  unfold most_common. apply firstn_le_length.
Qed.

(** ** No division by zero *)

Lemma count_if_bounds {A} (f : A -> bool) (l : list A) :
  0 <= count_if f l <= Z.of_nat (length l).
Proof.
  unfold count_if. pose proof (filter_length_le f l). lia.
Qed.

Lemma get_bounds (which : listing) (d : profile_data) (k : Z) :
  0 <= get (counter_of which (accumulate d)) k <= total_samples (accumulate d).
Proof.
  rewrite total_is_length. destruct which; simpl.
  - rewrite exclusive_get. apply count_if_bounds.
  - rewrite inclusive_get. apply count_if_bounds.
Qed.

Lemma sum_nonpos (l : list Z) : (forall x, In x l -> x <= 0) -> sum l <= 0.
Proof.
  induction l as [|x l IH]; intros H.
  - unfold sum. simpl. lia.
  - rewrite sum_cons.
    assert (x <= 0) by (apply H; now left).
    assert (sum l <= 0) by (apply IH; intros y Hy; apply H; now right).
    lia.
Qed.

Lemma total_over_positive (which : listing) (d : profile_data)
      (ms : list (Z * str)) :
  0 < total_over (counter_of which (accumulate d)) ms ->
  1 <= total_samples (accumulate d).
Proof.
  intros Hpos.
  destruct (Z_lt_le_dec 0 (total_samples (accumulate d))) as [|Hle]; [lia|].
  exfalso. unfold total_over in Hpos.
  enough (sum (map (fun p => get (counter_of which (accumulate d)) (fst p)) ms)
          <= 0) by lia.
  apply sum_nonpos. intros x Hx. apply in_map_iff in Hx.
  destruct Hx as (p & <- & _).
  pose proof (get_bounds which d (fst p)). lia.
Qed.

Lemma insert_desc_In x y l : In y (insert_desc x l) -> y = x \/ In y l.
Proof.
  induction l as [|z l IH]; simpl.
  - intros [<-|[]]. now left.
  - destruct (snd z <=? snd x); simpl.
    + intros [<-|[<-|H]]; auto.
    + intros [<-|H]; auto. destruct (IH H); auto.
Qed.

Lemma most_common_In n c y : In y (most_common n c) -> In y c.
Proof.
  unfold most_common, sorted_desc. intros H.
  assert (H' : In y (fold_right insert_desc [] c)).
  { rewrite <- (firstn_skipn n). apply in_or_app. now left. }
  clear H. rename H' into H.
  induction c as [|x c IH]; simpl in *; [assumption|].
  apply insert_desc_In in H. destruct H as [->|H]; auto.
Qed.

Lemma listed_item (which : listing) (d : profile_data) (n : nat)
      (item : Z * Z) :
  In item (most_common n (counter_of which (accumulate d))) ->
  1 <= snd item /\ 1 <= total_samples (accumulate d).
Proof.
  intros H%most_common_In. split.
  - rewrite counter_of_events in H.
    assert (Hp : positive (fold_left incr (events_of which d) empty))
      by (apply positive_fold_incr; constructor).
    unfold positive in Hp. rewrite Forall_forall in Hp. now apply Hp.
  - rewrite total_is_length.
    destruct (all_samples d) as [|s ss] eqn:Hs; [|simpl length; lia].
    exfalso. rewrite counter_of_events in H.
    destruct which; unfold events_of, exclusive_events, inclusive_events in H;
      rewrite Hs in H; exact H.
Qed.

Lemma only_index_error_bind {L A B} (m : IO L A) (k : A -> IO L B) :
  only_index_error m -> (forall a, only_index_error (k a)) ->
  only_index_error (bind m k).
Proof.
  intros Hm Hk out. unfold bind. specialize (Hm out).
  destruct (m out) as [out' [a|e]]; simpl in *.
  - apply Hk.
  - exact Hm.
Qed.

Lemma only_index_error_print {L} (l : L) : only_index_error (print l).
Proof. intros out. exact I. Qed.

Lemma only_index_error_ret {L A} (a : A) : only_index_error (@ret L A a).
Proof. intros out. exact I. Qed.

Lemma only_index_error_getitem {L A} (l : list A) (i : Z) :
  only_index_error (@lift L A (getitem l i)).
Proof.
  intros out. unfold lift, getitem. simpl.
  destruct (_ && _); [destruct (nth_error _ _)|]; exact I.
Qed.

Lemma only_index_error_truediv {L} (a b : Z) :
  b <> 0 -> only_index_error (@lift L Q (truediv a b)).
Proof.
  intros Hb out. unfold lift, truediv. simpl.
  destruct (Z.eqb_spec b 0); [contradiction | exact I].
Qed.

Lemma only_index_error_for_each {L A} (xs : list A) (body : A -> IO L unit) :
  (forall x, In x xs -> only_index_error (body x)) ->
  only_index_error (for_each xs body).
Proof.
  induction xs as [|x xs IH]; intros H; simpl.
  - apply only_index_error_ret.
  - apply only_index_error_bind.
    + apply H. now left.
    + intros _. apply IH. intros y Hy. apply H. now right.
Qed.

Lemma only_index_error_print_frame (total : Z) (names : list str)
      (item : Z * Z) :
  total <> 0 -> only_index_error (print_frame total names item).
Proof.
  intros Ht. destruct item as [idx count]. unfold print_frame.
  apply only_index_error_bind; [now apply only_index_error_truediv|].
  intros pct. apply only_index_error_bind; [apply only_index_error_getitem|].
  intros name. apply only_index_error_print.
Qed.

Lemma only_index_error_check_target (d : profile_data) (names : list str)
      (t : str) :
  only_index_error (check_target (accumulate d) names t).
Proof.
  unfold check_target.
  destruct (Z.ltb_spec 0 (total_over (inclusive_counter (accumulate d))
                                     (matches t names))) as [Hpos|_].
  - pose proof (total_over_positive Inclusive d _ Hpos) as Ht.
    apply only_index_error_bind; [apply only_index_error_truediv; lia|].
    intros p1.
    apply only_index_error_bind; [apply only_index_error_truediv; lia|].
    intros p2. apply only_index_error_print.
  - apply only_index_error_ret.
Qed.

Lemma only_index_error_analyze_profile (filename : str) (d : profile_data) :
  only_index_error (analyze_profile filename d).
Proof.
  unfold analyze_profile.
  apply only_index_error_bind; [apply only_index_error_print | intros _].
  cbv zeta.
  apply only_index_error_bind; [apply only_index_error_print | intros _].
  apply only_index_error_bind; [apply only_index_error_print | intros _].
  apply only_index_error_bind; [|intros _].
  { apply only_index_error_for_each. intros item Hin.
    apply only_index_error_print_frame.
    destruct (listed_item Exclusive d 20 item Hin). lia. }
  apply only_index_error_bind; [apply only_index_error_print | intros _].
  apply only_index_error_bind; [|intros _].
  { apply only_index_error_for_each. intros item Hin.
    apply only_index_error_print_frame.
    destruct (listed_item Inclusive d 20 item Hin). lia. }
  apply only_index_error_bind; [apply only_index_error_print | intros _].
  apply only_index_error_bind; [|intros _].
  { apply only_index_error_for_each. intros t _.
    apply only_index_error_check_target. }
  apply only_index_error_print.
Qed.

(** C10: [analyze_profile] never stops on a division by zero: on every
    document it ends normally or with an [IndexError] of a name lookup.
    A frame listed by [most_common] has a count of at least 1 and then
    [total_samples] is at least 1, and a target whose inclusive sum is
    positive has [total_samples] at least 1: those are the only places
    that divide by [total_samples]. *)
Theorem no_division_by_zero (filename : str) (d : profile_data)
        (out : list line) :
  (exists out',
      analyze_profile filename d out = (out', Ok tt)
      \/ analyze_profile filename d out = (out', Raise IndexError))
  /\ (forall (which : listing) (item : Z * Z),
         In item (most_common 20 (counter_of which (accumulate d))) ->
         1 <= snd item /\ 1 <= total_samples (accumulate d))
  /\ (forall (t : str) (frame_names : list str),
         0 < total_over (inclusive_counter (accumulate d))
                        (matches t frame_names) ->
         1 <= total_samples (accumulate d)).
Proof.
  split; [|split].
  - pose proof (only_index_error_analyze_profile filename d out) as H.
    destruct (analyze_profile filename d out) as [out' [[]|e]] eqn:Hrun.
    + exists out'. now left.
    + exists out'. right. simpl in H. destruct e; try contradiction.
      reflexivity.
  - intros which item. apply listed_item.
  - intros t frame_names. apply (total_over_positive Inclusive).
Qed.

End Report.

(** The ranking on [tie_data]: 5 and 3 both have the exclusive count 2,
    and 5, incremented first, is listed first. *)
Lemma top20_order_witness :
  (0 < 1)%nat
  /\ nth_error (Counter.most_common 20
                  (counter_of Exclusive
                              (accumulate (PS := nodup_PySet) tie_data)))
               0 = Some (5, 2)%Z
  /\ nth_error (Counter.most_common 20
                  (counter_of Exclusive
                              (accumulate (PS := nodup_PySet) tie_data)))
               1 = Some (3, 2)%Z
  /\ ((2 <= 2)%Z
      /\ (2%Z = 2%Z ->
          earlier 5 3 (events_of (PS := nodup_PySet) Exclusive tie_data))
      /\ counter_of Exclusive (accumulate (PS := nodup_PySet) tie_data)
         = fold_left Counter.incr
                     (events_of (PS := nodup_PySet) Exclusive tie_data)
                     Counter.empty
      /\ (length (Counter.most_common 20
                    (counter_of Exclusive
                                (accumulate (PS := nodup_PySet) tie_data)))
          <= 20)%nat).
Proof.
  assert (H01 : (0 < 1)%nat) by (apply Nat.lt_0_succ).
  split; [exact H01|].
  split; [reflexivity|].
  split; [reflexivity|].
  exact (@top20_order nodup_PySet tie_data Exclusive 0 1 5 2 3 2
                      H01 eq_refl eq_refl).
Defined.

(* ================================================================== *)
(** * The regular expression: the matcher finds what the pattern says  *)
(* ================================================================== *)

Module ReFacts.
Import Re.

Lemma strip_prefix_Some (l s s' : str) :
  strip_prefix l s = Some s' <-> s = l ++ s'.
Proof.
  revert s. induction l as [|a l IH]; intros s; simpl.
  - split; [intros [= ->]; reflexivity | intros ->; reflexivity].
  - destruct s as [|b s]; [split; discriminate|].
    destruct (Ascii.eqb_spec a b) as [->|Hab].
    + rewrite IH. split; [intros ->; reflexivity | intros [= ->]; reflexivity].
    + split; [discriminate | intros [= <- _]; contradiction].
Qed.

Lemma strip_prefix_None (l s : str) :
  strip_prefix l s = None -> forall s', s <> l ++ s'.
Proof.
  intros H s' Heq. apply strip_prefix_Some in Heq. congruence.
Qed.

(** A match is a text of the pattern and a prefix of the input. *)
Lemma match_here_sound (p : pattern) (s m : str) :
  match_here p s = Some m -> lang p m /\ exists rest, s = m ++ rest.
Proof.
  revert s m. induction p as [|[l|] p IH]; intros s m; cbn [match_here lang].
  - intros [= <-]. split; [reflexivity | now exists s].
  - destruct (strip_prefix l s) as [s'|] eqn:Hl; [|discriminate].
    apply strip_prefix_Some in Hl. subst s.
    destruct (match_here p s') as [m'|] eqn:Hm; [|discriminate].
    intros [= <-]. destruct (IH _ _ Hm) as (Hlang & rest & ->).
    split; [now exists m' | exists rest; now rewrite app_assoc].
  - revert m. induction s as [|c s IHs]; intros m.
    + destruct (match_here p []) as [m'|] eqn:Hm; [|discriminate].
      intros [= <-]. destruct (IH _ _ Hm) as (Hlang & rest & Hrest).
      split; [now exists [], m' | now exists rest].
    + destruct (match_here p (c :: s)) as [m'|] eqn:Hm.
      * intros [= <-]. destruct (IH _ _ Hm) as (Hlang & rest & Hrest).
        split; [now exists [], m' | now exists rest].
      * match goal with
        | |- option_map _ ?x = _ -> _ => destruct x as [m'|] eqn:Hlazy
        end; [|discriminate].
        intros [= <-].
        destruct (IHs _ eq_refl) as ((a & m2 & -> & Hlang) & rest & ->).
        split; [now exists (c :: a), m2 | now exists rest].
Qed.

(** When the matcher fails, no prefix of the input is a text of the
    pattern. *)
Lemma match_here_complete (p : pattern) (s : str) :
  match_here p s = None -> forall m rest, s = m ++ rest -> ~ lang p m.
Proof.
  revert s. induction p as [|[l|] p IH]; intros s; cbn [match_here lang].
  - discriminate.
  - destruct (strip_prefix l s) as [s'|] eqn:Hl.
    + apply strip_prefix_Some in Hl. subst s.
      destruct (match_here p s') as [m'|] eqn:Hm; [discriminate|].
      intros _ m rest Heq (m2 & -> & Hlang).
      rewrite <- app_assoc in Heq. apply app_inv_head in Heq.
      exact (IH _ Hm _ _ Heq Hlang).
    + intros _ m rest Heq (m2 & -> & Hlang).
      rewrite <- app_assoc in Heq.
      exact (strip_prefix_None _ _ Hl _ Heq).
  - induction s as [|c s IHs].
    + destruct (match_here p []) as [m'|] eqn:Hm; [discriminate|].
      intros _ m rest Heq (a & m2 & -> & Hlang).
      symmetry in Heq. apply app_eq_nil in Heq. destruct Heq as [Heq ->].
      apply app_eq_nil in Heq. destruct Heq as [-> ->].
      exact (IH _ Hm [] [] eq_refl Hlang).
    + destruct (match_here p (c :: s)) as [m'|] eqn:Hm; [discriminate|].
      match goal with
      | |- option_map _ ?x = _ -> _ => destruct x as [m'|] eqn:Hlazy
      end; [discriminate|].
      intros _ m rest Heq (a & m2 & -> & Hlang).
      destruct a as [|c' a]; simpl in Heq.
      * exact (IH _ Hm _ _ Heq Hlang).
      * injection Heq as <- Heq.
        apply (IHs eq_refl (a ++ m2) rest Heq). now exists a, m2.
Qed.

Lemma search_sound (p : pattern) (s m : str) :
  search p s = Some m ->
  lang p m /\ exists pre post, s = pre ++ m ++ post.
Proof.
  induction s as [|c s IH]; cbn [search].
  - destruct (match_here p []) as [m'|] eqn:Hm; [|discriminate].
    intros [= <-].
    destruct (match_here_sound _ _ _ Hm) as (Hlang & rest & Hrest).
    split; [assumption | now exists [], rest].
  - destruct (match_here p (c :: s)) as [m'|] eqn:Hm.
    + intros [= <-].
      destruct (match_here_sound _ _ _ Hm) as (Hlang & rest & Hrest).
      split; [assumption | now exists [], rest].
    + intros H. destruct (IH H) as (Hlang & pre & post & ->).
      split; [assumption | now exists (c :: pre), post].
Qed.

Lemma search_complete (p : pattern) (s : str) :
  search p s = None ->
  forall pre m post, s = pre ++ m ++ post -> ~ lang p m.
Proof.
  induction s as [|c s IH]; cbn [search].
  - destruct (match_here p []) as [m'|] eqn:Hm; [discriminate|].
    intros _ pre m post Heq. destruct pre; [|discriminate].
    simpl in Heq. symmetry in Heq. apply app_eq_nil in Heq.
    destruct Heq as [-> ->].
    exact (match_here_complete _ _ Hm [] [] eq_refl).
  - destruct (match_here p (c :: s)) as [m'|] eqn:Hm; [discriminate|].
    intros H pre m post Heq. destruct pre as [|c' pre]; simpl in Heq.
    + exact (match_here_complete _ _ Hm _ _ Heq).
    + injection Heq as _ Heq. exact (IH H _ _ _ Heq).
Qed.

End ReFacts.

Section TableSearch.

Lemma lang_table_re (m : str) :
  Re.lang table_re m <->
  exists a b, m = lit "| Runs" ++ a ++ [nl; "|"%char] ++ b ++ [nl; nl].
Proof.
  unfold table_re. cbn [Re.lang]. split.
  - intros (m1 & -> & a & m2 & -> & m3 & -> & b & m4 & -> & m5 & -> & ->).
    exists a, b. rewrite app_nil_r. reflexivity.
  - intros (a & b & ->).
    eexists; split; [reflexivity|]. exists a. eexists; split; [reflexivity|].
    eexists; split; [reflexivity|]. exists b. eexists; split; [reflexivity|].
    exists []. split; [now rewrite app_nil_r | reflexivity].
Qed.

(** The search fails exactly on the contents without a table. *)
Lemma search_None_iff (content : str) :
  Re.search table_re content = None <-> ~ has_table content.
Proof.
  split.
  - intros H (pre & a & b & post & Heq).
    apply (ReFacts.search_complete _ _ H pre
             (lit "| Runs" ++ a ++ [nl; "|"%char] ++ b ++ [nl; nl]) post).
    + rewrite Heq. repeat rewrite <- app_assoc. reflexivity.
    + apply lang_table_re. now exists a, b.
  - intros Hno. destruct (Re.search table_re content) as [m|] eqn:Hs;
      [|reflexivity].
    exfalso. apply Hno.
    destruct (ReFacts.search_sound _ _ _ Hs) as (Hlang & pre & post & ->).
    apply lang_table_re in Hlang. destruct Hlang as (a & b & ->).
    exists pre, a, b, post. repeat rewrite <- app_assoc. reflexivity.
Qed.

End TableSearch.

(* ================================================================== *)
(** * compare_benchmarks.py: rows, tables and percentages              *)
(* ================================================================== *)

Section Comparison.

Variable py_int : str -> option Z.
Variable py_float : str -> option Q.
Variable fs : str -> option str.


(** ** The rows of the table *)

(** A line is skipped exactly when it has fewer than nine fields. *)
Lemma parse_line_skips (line : str) :
  parse_line py_int py_float line = Ok None <->
  (length (split "|"%char line) < 9)%nat.
Proof.
  unfold parse_line.
  destruct (Nat.leb_spec 9 (length (split "|"%char line))) as [Hge|Hlt].
  - split; [|lia]. unfold rbind, field, to_int, to_float.
    repeat match goal with
           | |- context [match ?x with _ => _ end] => destruct x
           end; discriminate.
  - split; [intros _; exact Hlt | reflexivity].
Qed.

(** A line of exactly nine fields passes the test of line 15 and is
    never kept: [parts[9]] is out of range. *)
Lemma parse_line_nine_fields (line : str) :
  length (split "|"%char line) = 9%nat ->
  exists e, parse_line py_int py_float line = Raise e.
Proof.
  intros Hlen. unfold parse_line. rewrite Hlen. cbn [Nat.leb].
  assert (H9 : field (split "|"%char line) 9 = Raise IndexError).
  { unfold field.
    rewrite (proj2 (nth_error_None _ _)); [reflexivity | lia]. }
  unfold rbind. rewrite H9.
  repeat match goal with
         | |- context [match ?x with _ => _ end] => destruct x
         end; eauto.
Qed.

(** ** Percentages *)

Lemma pct_of_guarded (change base : Q) :
  exists pct, pct_of change base = Ok pct /\ guarded_pct change base pct.
Proof.
  unfold pct_of, guarded_pct.
  destruct (Qlt_le_dec 0 base) as [Hpos|Hle].
  - assert (Hne : ~ base == 0).
    { intros H. rewrite H in Hpos. exact (Qlt_irrefl 0 Hpos). }
    unfold fdiv. destruct (Qeq_bool base 0) eqn:Hb.
    + apply Qeq_bool_iff in Hb. contradiction.
    + cbn [rbind]. eexists. split; [reflexivity|]. split.
      * intros _. field. exact Hne.
      * intros H. contradiction.
  - exists 0. split; [reflexivity|]. split.
    + intros H. exfalso. exact (Qlt_not_le _ _ H Hle).
    + intros _. reflexivity.
Qed.

Lemma sumQ_app (l1 l2 : list Q) (start : Q) :
  sumQ (l1 ++ l2) start = sumQ l2 (sumQ l1 start).
Proof. unfold sumQ. apply fold_left_app. Qed.

(** The loop over the paired rows prints one line per pair, with the
    guarded percentage, and adds up the old and the new times. *)
Lemma compare_rows_shown (pairs : list (bench_row * bench_row))
      (totals : Q * Q) (out : list cline) :
  exists lines,
    compare_rows pairs totals out
    = (out ++ lines,
       Ok (sumQ (map old_time pairs) (fst totals),
           sumQ (map new_time pairs) (snd totals)))
    /\ Forall2 row_shown pairs lines.
Proof.
  revert totals out. induction pairs as [|rows pairs IH]; intros totals out.
  - exists []. simpl. unfold ret. rewrite app_nil_r.
    destruct totals. split; [reflexivity | constructor].
  - destruct rows as [[[pop reg] old_t] [[pop' reg'] new_t]].
    cbn [compare_rows compare_row].
    destruct (pct_of_guarded (new_t - old_t) old_t) as (pct & Hpct & Hg).
    unfold bind at 1. unfold bind at 1. unfold lift. rewrite Hpct.
    unfold bind at 1. unfold print, ret.
    destruct (IH (fst totals + old_t, snd totals + new_t)
                 (out ++ [CRow pop reg old_t new_t (new_t - old_t) pct]))
      as (lines & Hrun & Hall).
    exists (CRow pop reg old_t new_t (new_t - old_t) pct :: lines).
    split.
    + rewrite Hrun, <- app_assoc. reflexivity.
    + constructor; [|exact Hall]. exists pct. split; [reflexivity | exact Hg].
Qed.

Lemma parse_times_no_table (path content : str) :
  fs path = Some content -> ~ has_table content ->
  parse_times py_int py_float fs path = Ok [].
Proof.
  intros Hfs Hno. unfold parse_times, parse_content.
  rewrite Hfs. apply search_None_iff in Hno. rewrite Hno. reflexivity.
Qed.

Lemma pct_of_zero_base (change : Q) : pct_of change 0 = Ok 0.
Proof.
  unfold pct_of. destruct (Qlt_le_dec 0 0) as [H|_]; [|reflexivity].
  exfalso. exact (Qlt_irrefl 0 H).
Qed.

(** A case one of whose row lists is empty. *)
Lemma compare_case_no_pairs (grand : Q * Q) (name old_file new_file : str)
      (old_times new_times : list bench_row) (out : list cline) :
  parse_times py_int py_float fs old_file = Ok old_times ->
  parse_times py_int py_float fs new_file = Ok new_times ->
  combine old_times new_times = [] ->
  compare_case py_int py_float fs grand (name, (old_file, new_file)) out
  = (out ++ [CCase name; CRule "-"%char; CHeader; CRule "-"%char;
             CRule "-"%char; CTotal 0 0 0 0],
     Ok (fst grand + 0, snd grand + 0)).
Proof.
  intros Hold Hnew Hnil. unfold compare_case.
  unfold bind, print, lift. rewrite Hold, Hnew, Hnil.
  cbn [compare_rows ret fst snd].
  change (0 - 0) with 0. rewrite pct_of_zero_base.
  repeat rewrite <- app_assoc. reflexivity.
Qed.

(** C7: when the text of a file has no results table, [parse_times]
    returns the empty list and raises nothing; the case that file
    belongs to, the other file being read without an error, shows no
    row and a total line of zeros. *)
Theorem missing_table_gives_no_rows (path content : str) :
  fs path = Some content ->
  ~ has_table content ->
  parse_times py_int py_float fs path = Ok []
  /\ (forall (name other : str) (rows : list bench_row) (grand : Q * Q)
             (out : list cline),
         parse_times py_int py_float fs other = Ok rows ->
         compare_case py_int py_float fs grand (name, (path, other)) out
         = (out ++ [CCase name; CRule "-"%char; CHeader; CRule "-"%char;
                    CRule "-"%char; CTotal 0 0 0 0],
            Ok (fst grand + 0, snd grand + 0))
         /\ compare_case py_int py_float fs grand (name, (other, path)) out
            = (out ++ [CCase name; CRule "-"%char; CHeader; CRule "-"%char;
                       CRule "-"%char; CTotal 0 0 0 0],
               Ok (fst grand + 0, snd grand + 0))).
Proof.
  intros Hfs Hno.
  pose proof (parse_times_no_table path content Hfs Hno) as Hempty.
  split; [exact Hempty|].
  intros name other rows grand out Hother. split.
  - apply (compare_case_no_pairs grand name path other [] rows);
      [assumption | assumption | reflexivity].
  - apply (compare_case_no_pairs grand name other path rows []);
      [assumption | assumption | apply combine_nil].
Qed.

(** C8: the percentage of a paired row is [100 * (new - old) / old]
    when the old time is positive and 0 otherwise, and computing it
    raises nothing, a zero old time included; every paired row is shown
    with that percentage; the total line of a case and the overall
    line of the report carry the percentage given by the same rule on
    the sums. *)
Theorem percentage_change_guarded :
  (forall old_t new_t : Q,
      exists pct,
        pct_of (new_t - old_t) old_t = Ok pct
        /\ guarded_pct (new_t - old_t) old_t pct)
  /\ (forall new_t : Q, pct_of (new_t - 0) 0 = Ok 0)
  /\ (forall (pairs : list (bench_row * bench_row)) (totals : Q * Q)
             (out : list cline),
         exists lines,
           compare_rows pairs totals out
           = (out ++ lines,
              Ok (sumQ (map old_time pairs) (fst totals),
                  sumQ (map new_time pairs) (snd totals)))
           /\ Forall2 row_shown pairs lines)
  /\ (forall (grand : Q * Q) (name old_file new_file : str)
             (old_times new_times : list bench_row) (out : list cline),
         parse_times py_int py_float fs old_file = Ok old_times ->
         parse_times py_int py_float fs new_file = Ok new_times ->
         let pairs := combine old_times new_times in
         let total_old := sumQ (map old_time pairs) 0 in
         let total_new := sumQ (map new_time pairs) 0 in
         exists lines pct,
           compare_case py_int py_float fs grand
                        (name, (old_file, new_file)) out
           = (out ++ [CCase name; CRule "-"%char; CHeader; CRule "-"%char]
                  ++ lines
                  ++ [CRule "-"%char;
                      CTotal total_old total_new (total_new - total_old)
                             pct],
              Ok (fst grand + total_old, snd grand + total_new))
           /\ Forall2 row_shown pairs lines
           /\ guarded_pct (total_new - total_old) total_old pct)
  /\ (forall out : list cline,
         match compare_cases py_int py_float fs
                             (combine names (combine old_files new_files))
                             (0, 0) (out ++ [CTitle; CRule "="%char]) with
         | (out', Raise e) => main py_int py_float fs out = (out', Raise e)
         | (out', Ok grand) =>
             exists pct,
               main py_int py_float fs out
               = (out' ++ [CRule "="%char; COverall; CRule "="%char;
                           CTotalOld (fst grand); CTotalNew (snd grand);
                           CTotalChange (snd grand - fst grand) pct],
                  Ok tt)
               /\ guarded_pct (snd grand - fst grand) (fst grand) pct
         end).
Proof.
  split; [|split; [|split; [|split]]].
  - intros old_t new_t. apply pct_of_guarded.
  - intros new_t. apply pct_of_zero_base.
  - apply compare_rows_shown.
  - intros grand name old_file new_file old_times new_times out Hold Hnew
           pairs total_old total_new.
    unfold compare_case.
    unfold bind at 1. unfold print at 1.
    unfold bind at 1. unfold print at 1.
    unfold bind at 1. unfold lift at 1. rewrite Hold.
    unfold bind at 1. unfold lift at 1. rewrite Hnew.
    unfold bind at 1. unfold print at 1.
    unfold bind at 1. unfold print at 1.
    unfold bind at 1.
    match goal with
    | |- context [compare_rows ?ps ?t ?o] =>
        destruct (compare_rows_shown ps t o) as (lines & Hrun & Hall)
    end.
    rewrite Hrun. cbn [fst snd].
    fold pairs. fold total_old. fold total_new.
    destruct (pct_of_guarded (total_new - total_old) total_old)
      as (pct & Hpct & Hg).
    unfold bind, lift, print, ret. rewrite Hpct.
    exists lines, pct. split; [|split; assumption].
    repeat rewrite <- app_assoc. reflexivity.
  - intros out.
    destruct (compare_cases py_int py_float fs
                (combine names (combine old_files new_files)) (0, 0)
                (out ++ [CTitle; CRule "="%char]))
      as [out' [grand|e]] eqn:Hrun.
    + destruct (pct_of_guarded (snd grand - fst grand) (fst grand))
        as (pct & Hpct & Hg).
      exists pct. split; [|exact Hg].
      unfold main, bind, lift, print.
      rewrite <- app_assoc. cbn [app]. rewrite Hrun, Hpct.
      repeat rewrite <- app_assoc. reflexivity.
    + unfold main, bind, lift, print.
      rewrite <- app_assoc. cbn [app]. rewrite Hrun. reflexivity.
Qed.

End Comparison.

(** C4: a data row that splits into exactly nine fields passes the test
    [len(parts) >= 9] and the read of [parts[9]] is then out of range:
    on a table of seven columns [parse_times] stops with an [IndexError],
    whatever [int] and [float] accept. *)
Theorem nine_field_row_raises_IndexError :
  parse_times dec_int dec_float (every_file seven_columns) (lit "report.md")
  = Raise IndexError
  /\ (forall (py_int : str -> option Z) (py_float : str -> option Q),
         exists e,
           parse_times py_int py_float (every_file seven_columns)
                       (lit "report.md")
           = Raise e).
Proof.
  split; [vm_compute; reflexivity|].
  intros py_int py_float. unfold parse_times, every_file, parse_content.
  assert (Hs : Re.search table_re seven_columns = Some seven_columns)
    by (vm_compute; reflexivity).
  rewrite Hs.
  assert (Hl : slice_2_m2 (split nl seven_columns)
               = [lit "| 1 | 100 | 5 | x | y | z | w |"])
    by (vm_compute; reflexivity).
  rewrite Hl. cbn [parse_lines].
  destruct (parse_line_nine_fields py_int py_float
              (lit "| 1 | 100 | 5 | x | y | z | w |") eq_refl) as (e & He).
  rewrite He. exists e. reflexivity.
Qed.

(** A report without a table, compared with one that has two rows: no
    row is paired and the totals are 0. *)
Lemma missing_table_gives_no_rows_witness :
  old_without_table (lit "old.md") = Some no_table_report
  /\ ~ has_table no_table_report
  /\ parse_times dec_int dec_float old_without_table (lit "old.md") = Ok []
  /\ parse_times dec_int dec_float old_without_table (lit "new.md")
     = Ok [(100%Z, 5%Z, 1); (200%Z, 10%Z, 2)]
  /\ compare_case dec_int dec_float old_without_table (0, 0)
                  (lit "Ackley", (lit "old.md", lit "new.md")) []
     = ([CCase (lit "Ackley"); CRule "-"%char; CHeader; CRule "-"%char;
         CRule "-"%char; CTotal 0 0 0 0],
        Ok (fst (0, 0) + 0, snd (0, 0) + 0)).
Proof.
  assert (Hfs : old_without_table (lit "old.md") = Some no_table_report)
    by reflexivity.
  assert (Hno : ~ has_table no_table_report)
    by (apply search_None_iff; reflexivity).
  assert (Hnew : parse_times dec_int dec_float old_without_table (lit "new.md")
                 = Ok [(100%Z, 5%Z, 1); (200%Z, 10%Z, 2)])
    by (vm_compute; reflexivity).
  pose proof (missing_table_gives_no_rows dec_int dec_float old_without_table
                (lit "old.md") no_table_report Hfs Hno) as [Hempty Hcase].
  split; [exact Hfs|]. split; [exact Hno|]. split; [exact Hempty|].
  split; [exact Hnew|].
  exact (proj1 (Hcase (lit "Ackley") (lit "new.md") _ (0, 0) [] Hnew)).
Defined.

(* ================================================================== *)
(** * The examples of the specification                                *)
(* ================================================================== *)

(** The end-to-end example: [total_samples] is 2, the exclusive counts
    are [{1: 2}] and the inclusive counts [{0: 1, 1: 2}]. *)
Example ab_data_counts :
  accumulate (PS := nodup_PySet) ab_data
  = {| total_samples := 2;
       exclusive_counter := [(1, 2)%Z];
       inclusive_counter := [(0, 1)%Z; (1, 2)%Z] |}.
Proof. reflexivity. Qed.

(** Its report: [b] leads both listings and no target matches. *)
Example ab_data_report :
  analyze_profile (PS := nodup_PySet) (lit "p.json") ab_data []
  = ([LAnalyzing (lit "p.json"); LTotalSamples 2;
      LTopExclusive (lit "p.json"); LFrame 2 (200 # 2) (lit "b");
      LTopInclusive (lit "p.json"); LFrame 2 (200 # 2) (lit "b");
      LFrame 1 (100 # 2) (lit "a"); LSpecificChecks; LBlank],
     Ok tt).
Proof. reflexivity. Qed.

(** The stack [[2,2,3]] adds 1 to the inclusive counts of 2 and of 3, 1 to
    the exclusive count of 3 and nothing to the exclusive count of 2,
    whatever the iteration order of the set. *)
Example stack_2_2_3 {PS : PySet} (c : counts) :
  let c' := count_stack c [2; 2; 3]%Z in
  (Counter.get (inclusive_counter c') 2
   = Counter.get (inclusive_counter c) 2 + 1)%Z
  /\ (Counter.get (inclusive_counter c') 3
      = Counter.get (inclusive_counter c) 3 + 1)%Z
  /\ (Counter.get (exclusive_counter c') 3
      = Counter.get (exclusive_counter c) 3 + 1)%Z
  /\ (Counter.get (exclusive_counter c') 2
      = Counter.get (exclusive_counter c) 2)%Z.
Proof.
  intros c'.
  destruct (count_stack_keys c [2; 2; 3]%Z) as (_ & He & Hi).
  fold c' in He, Hi. rewrite He, Hi.
  rewrite !CounterFacts.get_fold_incr, !occ_set_keys.
  cbn. repeat split; lia.
Qed.

(** The target [Mutex] matches on a substring and without regard to
    case. *)
Example mutex_matches :
  map fst (matches (lit "Mutex")
                   [lit "sys::Mutex::lock"; lit "MutexGuard::drop";
                    lit "main"; lit "parking_lot::raw_mutex::lock_slow"])
  = [0; 1; 3]%Z.
Proof. reflexivity. Qed.

(** The comparator example: old times 1.0 and 2.0, new times 1.1 and 1.8
    give +10% and -10%; the totals 3.0 and 2.9 give -3.33...%. *)
Example comparator_percentages :
  (exists p, pct_of ((11 # 10) - 1) 1 = Ok p /\ p == 10)
  /\ (exists p, pct_of ((18 # 10) - 2) 2 = Ok p /\ p == - (10))
  /\ (exists p, pct_of ((29 # 10) - 3) 3 = Ok p /\ p == - (10 # 3))
  /\ (exists p, pct_of (5 - 0) 0 = Ok p /\ p == 0).
Proof.
  repeat split; eexists; (split; [vm_compute; reflexivity | reflexivity]).
Qed.

(** A table in the layout of the benchmark files is read row by row. *)
Example two_rows_report_times :
  parse_times dec_int dec_float (every_file two_rows_report) (lit "old.md")
  = Ok [(100%Z, 5%Z, 1); (200%Z, 10%Z, 2)].
Proof. vm_compute. reflexivity. Qed.

(* ================================================================== *)
(** * analyze_profiles.py: what a listing holds                        *)
(* ================================================================== *)

Section Listings.

Context {PS : PySet}.
Import Counter CounterFacts.
Local Open Scope Z_scope.

Lemma add_key_NoDup (ks : list Z) (k : Z) : NoDup ks -> NoDup (add_key ks k).
Proof.
  intros Hnd. unfold add_key. destruct (existsb (Z.eqb k) ks) eqn:Hmem.
  - exact Hnd.
  - apply NoDup_app; [exact Hnd | repeat constructor; intros [] |].
    intros x Hx [Hk|[]]. subst x.
    apply Bool.not_true_iff_false in Hmem. apply Hmem.
    apply existsb_exists. exists k. split; [exact Hx | apply Z.eqb_refl].
Qed.

Lemma add_key_In (ks : list Z) (k x : Z) :
  In x (add_key ks k) <-> In x ks \/ x = k.
Proof.
  unfold add_key. destruct (existsb (Z.eqb k) ks) eqn:Hmem.
  - split; [now left|]. intros [H | ->]; [exact H|].
    apply existsb_exists in Hmem. destruct Hmem as (y & Hy & Hky).
    apply Z.eqb_eq in Hky. now subst y.
  - rewrite in_app_iff. simpl. split.
    + intros [H|[<-|[]]]; auto.
    + intros [H | ->]; auto.
Qed.

Lemma fold_add_key_NoDup (evs ks : list Z) :
  NoDup ks -> NoDup (fold_left add_key evs ks).
Proof.
  revert ks. induction evs as [|e evs IH]; intros ks Hnd; simpl;
    [exact Hnd | apply IH, add_key_NoDup, Hnd].
Qed.

Lemma fold_add_key_In (evs ks : list Z) (x : Z) :
  In x (fold_left add_key evs ks) <-> In x ks \/ In x evs.
Proof.
  revert ks. induction evs as [|e evs IH]; intros ks; simpl.
  - tauto.
  - rewrite IH, add_key_In. intuition.
Qed.

Lemma keys_NoDup (evs : list Z) : NoDup (keys (fold_left incr evs empty)).
Proof. rewrite keys_fold_incr. apply fold_add_key_NoDup. constructor. Qed.

Lemma keys_In (evs : list Z) (k : Z) :
  In k (keys (fold_left incr evs empty)) <-> In k evs.
Proof. rewrite keys_fold_incr, fold_add_key_In. simpl. tauto. Qed.

Lemma get_of_item (c : t) (k n : Z) :
  NoDup (keys c) -> In (k, n) c -> get c k = n.
Proof.
  unfold keys. induction c as [|[k' v] c IH]; intros Hnd Hin; [destruct Hin|].
  simpl in *. inversion Hnd as [|? ? Hnin Hnd']; subst.
  destruct Hin as [Heq|Hin].
  - injection Heq as -> ->. now rewrite Z.eqb_refl.
  - destruct (Z.eqb_spec k k') as [->|_].
    + exfalso. apply Hnin. apply in_map_iff. now exists (k', n).
    + now apply IH.
Qed.

Lemma insert_desc_Permutation (x : Z * Z) (l : list (Z * Z)) :
  Permutation (insert_desc x l) (x :: l).
Proof.
  induction l as [|y l IH]; simpl; [reflexivity|].
  destruct (snd y <=? snd x); [reflexivity|].
  rewrite IH. apply perm_swap.
Qed.

Lemma sorted_desc_Permutation (l : list (Z * Z)) :
  Permutation (sorted_desc l) l.
Proof.
  unfold sorted_desc. induction l as [|x l IH]; simpl; [reflexivity|].
  rewrite insert_desc_Permutation. now constructor.
Qed.

Lemma NoDup_firstn {A} (n : nat) (l : list A) : NoDup l -> NoDup (firstn n l).
Proof.
  intros H. rewrite <- (firstn_skipn n l) in H.
  exact (NoDup_app_remove_r _ _ H).
Qed.

Lemma most_common_keys_NoDup (n : nat) (c : t) :
  NoDup (keys c) -> NoDup (map fst (most_common n c)).
Proof.
  intros Hnd. unfold most_common. rewrite <- firstn_map.
  apply NoDup_firstn.
  eapply Permutation_NoDup; [|exact Hnd].
  symmetry. apply Permutation_map, sorted_desc_Permutation.
Qed.

(** X1: in each listing a frame index stands at most once, and the count
    listed with it is the number of samples of which it is the leaf
    (exclusive listing) or whose stack holds it (inclusive listing); that
    count is at least 1. *)
Theorem listing_shows_sample_counts (d : profile_data) (which : listing) :
  NoDup (map fst (most_common 20 (counter_of which (accumulate d))))
  /\ (forall k n : Z,
         In (k, n) (most_common 20 (counter_of which (accumulate d))) ->
         1 <= n
         /\ n = count_if (match which with
                          | Exclusive => is_leaf k
                          | Inclusive => mem k
                          end) (all_samples d)).
Proof.
  split.
  - apply most_common_keys_NoDup. rewrite counter_of_events. apply keys_NoDup.
  - intros k n Hin. split.
    + exact (proj1 (listed_item which d 20 (k, n) Hin)).
    + apply most_common_In in Hin.
      assert (Hget : get (counter_of which (accumulate d)) k = n).
      { apply get_of_item; [|exact Hin].
        rewrite counter_of_events. apply keys_NoDup. }
      rewrite <- Hget. destruct which; simpl.
      * apply exclusive_get.
      * apply inclusive_get.
Qed.

(** X2: a listing has [min 20 m] entries, [m] being the number of distinct
    keys the counter was incremented with; when there are at most 20 of
    them the listing is a rearrangement of all the items of the counter. *)
Theorem listing_length (d : profile_data) (which : listing) :
  length (most_common 20 (counter_of which (accumulate d)))
  = Nat.min 20 (length (nodup Z.eq_dec (events_of which d)))
  /\ ((length (nodup Z.eq_dec (events_of which d)) <= 20)%nat ->
      Permutation (most_common 20 (counter_of which (accumulate d)))
                  (counter_of which (accumulate d))).
Proof.
  assert (Hlen : length (counter_of which (accumulate d))
                 = length (nodup Z.eq_dec (events_of which d))).
  { rewrite counter_of_events.
    rewrite <- (length_map fst (fold_left incr (events_of which d) empty)).
    apply Permutation_length, NoDup_Permutation.
    - apply keys_NoDup.
    - apply NoDup_nodup.
    - intros x. rewrite nodup_In. apply keys_In. }
  unfold most_common. split.
  - rewrite length_firstn, (Permutation_length (sorted_desc_Permutation _)).
    rewrite Hlen. reflexivity.
  - intros Hle. rewrite firstn_all2; [apply sorted_desc_Permutation|].
    rewrite (Permutation_length (sorted_desc_Permutation _)), Hlen.
    exact Hle.
Qed.

(** X3: [most_common n] keeps the largest counts: the items it lists and
    the items it leaves out are together the items of the counter, and no
    item left out has a larger count than a listed one. *)
Theorem most_common_keeps_largest (n : nat) (c : Counter.t) :
  Permutation (most_common n c ++ skipn n (sorted_desc c)) c
  /\ (forall x y : Z * Z,
         In x (most_common n c) -> In y (skipn n (sorted_desc c)) ->
         snd y <= snd x).
Proof.
  unfold most_common. split.
  - rewrite firstn_skipn. apply sorted_desc_Permutation.
  - intros x y Hx Hy.
    pose proof (sorted_desc_sorted c) as Hs.
    rewrite <- (firstn_skipn n (sorted_desc c)) in Hs.
    apply in_split in Hx. destruct Hx as (l1 & l2 & Hx).
    apply in_split in Hy. destruct Hy as (l3 & l4 & Hy).
    rewrite Hx, Hy in Hs.
    apply (sorted_before _ x y Hs).
    exists l1, (l2 ++ l3), l4. rewrite <- !app_assoc. reflexivity.
Qed.

(** X4: the count of a listed frame lies between 1 and [total_samples],
    so the percentage printed with it is above 0 and at most 100. *)
Theorem listed_percentage_bounds (d : profile_data) (which : listing)
        (item : Z * Z) :
  In item (most_common 20 (counter_of which (accumulate d))) ->
  1 <= snd item <= total_samples (accumulate d)
  /\ exists pct,
       truediv (100 * snd item) (total_samples (accumulate d)) = Ok pct
       /\ (0 < pct)%Q /\ (pct <= 100)%Q.
Proof.
  intros Hin.
  destruct (listed_item which d 20 item Hin) as [H1 Ht].
  assert (Hle : snd item <= total_samples (accumulate d)).
  { destruct item as [k n]. simpl in *.
    pose proof (most_common_In _ _ _ Hin) as Hc.
    assert (Hget : get (counter_of which (accumulate d)) k = n).
    { apply get_of_item; [|exact Hc].
      rewrite counter_of_events. apply keys_NoDup. }
    rewrite <- Hget. apply get_bounds. }
  split; [lia|].
  unfold truediv. destruct (Z.eqb_spec (total_samples (accumulate d)) 0);
    [lia|].
  eexists. split; [reflexivity|].
  set (T := total_samples (accumulate d)) in *.
  assert (HT : (0 < inject_Z T)%Q).
  { change (inject_Z 0 < inject_Z T)%Q. rewrite <- Zlt_Qlt. lia. }
  split.
  - apply Qlt_shift_div_l; [exact HT|].
    rewrite Qmult_0_l. change (inject_Z 0 < inject_Z (100 * snd item))%Q.
    rewrite <- Zlt_Qlt. lia.
  - apply Qle_shift_div_r; [exact HT|].
    change (inject_Z (100 * snd item) <= inject_Z 100 * inject_Z T)%Q.
    rewrite <- inject_Z_mult, <- Zle_Qle. lia.
Qed.

End Listings.

(* ================================================================== *)
(** * analyze_profiles.py: the lines of the report                     *)
(* ================================================================== *)

Section ReportLines.

Context {PS : PySet}.
Import Counter CounterFacts.
Local Open Scope Z_scope.

Lemma getitem_in_range {A} (l : list A) (i : Z) (default : A) :
  getitem l i = if in_range l i then Ok (item_at l i default)
                else Raise IndexError.
Proof.
  unfold getitem, in_range, item_at.
  set (n := Z.of_nat (length l)).
  destruct (Z.ltb_spec i 0) as [Hneg|Hpos].
  - destruct (Z.leb_spec (- n) i) as [Hlo|Hlo].
    + destruct (Z.ltb_spec i n) as [_|Hhi]; [|lia]. simpl.
      destruct (Z.leb_spec 0 (n + i)) as [_|]; [|lia].
      destruct (Z.ltb_spec (n + i) n) as [_|]; [|lia]. simpl.
      assert (Hlt : (Z.to_nat (- i - 1) < length l)%nat) by lia.
      rewrite (rev_nth l default Hlt).
      replace (length l - S (Z.to_nat (- i - 1)))%nat
        with (Z.to_nat (n + i)) by lia.
      destruct (nth_error l (Z.to_nat (n + i))) as [a|] eqn:Hn.
      * now rewrite (nth_error_nth _ _ default Hn).
      * apply nth_error_None in Hn. lia.
    + simpl. destruct (Z.leb_spec 0 (n + i)) as [|_]; [lia|]. reflexivity.
  - destruct (Z.leb_spec (- n) i) as [_|]; [|lia].
    destruct (Z.leb_spec 0 i) as [_|]; [|lia]. simpl.
    destruct (Z.ltb_spec i n) as [Hhi|Hhi]; [|reflexivity].
    destruct (nth_error l (Z.to_nat i)) as [a|] eqn:Hn.
    + now rewrite (nth_error_nth _ _ default Hn).
    + apply nth_error_None in Hn. lia.
Qed.

Lemma print_frame_cases (total : Z) (names : list str) (item : Z * Z)
      (out : list line) :
  print_frame total names item out
  = if total =? 0 then (out, Raise ZeroDivisionError)
    else if in_range names (fst item)
         then (out ++ [frame_line total names item], Ok tt)
         else (out, Raise IndexError).
Proof.
  destruct item as [idx count]. unfold print_frame, bind, lift, truediv.
  destruct (total =? 0); [reflexivity|].
  rewrite (getitem_in_range names idx []). simpl fst.
  destruct (in_range names idx); reflexivity.
Qed.

Lemma for_each_frames_ok (total : Z) (names : list str)
      (items : list (Z * Z)) (out : list line) :
  (forall x, In x items -> total <> 0) ->
  forallb (fun item => in_range names (fst item)) items = true ->
  for_each items (print_frame total names) out
  = (out ++ map (frame_line total names) items, Ok tt).
Proof.
  revert out. induction items as [|x items IH]; intros out Ht Hall.
  - simpl. unfold ret. now rewrite app_nil_r.
  - cbn [forallb] in Hall. apply andb_true_iff in Hall.
    destruct Hall as [Hx Hall].
    cbn [for_each map]. unfold bind. rewrite print_frame_cases.
    destruct (Z.eqb_spec total 0) as [H0|_];
      [exfalso; apply (Ht x); [now left | exact H0]|].
    rewrite Hx, IH; [|intros y Hy; apply (Ht y); now right | exact Hall].
    rewrite <- app_assoc. reflexivity.
Qed.

Lemma for_each_frames_bad (total : Z) (names : list str)
      (items : list (Z * Z)) (out : list line) :
  (forall x, In x items -> total <> 0) ->
  forallb (fun item => in_range names (fst item)) items = false ->
  exists out', for_each items (print_frame total names) out
               = (out', Raise IndexError).
Proof.
  revert out. induction items as [|x items IH]; intros out Ht Hall.
  - discriminate.
  - cbn [forallb] in Hall. cbn [for_each]. unfold bind.
    rewrite print_frame_cases.
    destruct (Z.eqb_spec total 0) as [H0|_];
      [exfalso; apply (Ht x); [now left | exact H0]|].
    destruct (in_range names (fst x)); [|now exists out].
    simpl in Hall.
    apply IH; [intros y Hy; apply (Ht y); now right | exact Hall].
Qed.

Lemma check_target_line (d : profile_data) (names : list str) (t : str)
      (out : list line) :
  check_target (accumulate d) names t out
  = (out ++ target_line (accumulate d) names t, Ok tt).
Proof.
  unfold check_target, target_line.
  destruct (Z.ltb_spec 0 (total_over (inclusive_counter (accumulate d))
                                     (matches t names))) as [Hpos|_].
  - pose proof (total_over_positive Inclusive d _ Hpos) as Ht.
    unfold bind, lift, truediv, print.
    destruct (Z.eqb_spec (total_samples (accumulate d)) 0); [lia|].
    reflexivity.
  - unfold ret. now rewrite app_nil_r.
Qed.

Lemma for_each_targets (d : profile_data) (names : list str)
      (ts : list str) (out : list line) :
  for_each ts (check_target (accumulate d) names) out
  = (out ++ flat_map (target_line (accumulate d) names) ts, Ok tt).
Proof.
  revert out. induction ts as [|t ts IH]; intros out.
  - simpl. unfold ret. now rewrite app_nil_r.
  - cbn [for_each flat_map]. unfold bind. rewrite check_target_line, IH.
    rewrite <- app_assoc. reflexivity.
Qed.

Lemma listed_total_nonzero (which : listing) (d : profile_data)
      (item : Z * Z) :
  In item (most_common 20 (counter_of which (accumulate d))) ->
  total_samples (accumulate d) <> 0.
Proof. intros H. destruct (listed_item which d 20 item H). lia. Qed.

Lemma listed_in_range_split (d : profile_data) :
  listed_in_range d
  = forallb (fun item => in_range (frame_names_of (frames d)) (fst item))
            (most_common 20 (exclusive_counter (accumulate d)))
    && forallb (fun item => in_range (frame_names_of (frames d)) (fst item))
               (most_common 20 (inclusive_counter (accumulate d))).
Proof. unfold listed_in_range, listed. apply forallb_app. Qed.

Lemma analyze_profile_report (filename : str) (d : profile_data)
      (out : list line) :
  listed_in_range d = true ->
  analyze_profile filename d out = (out ++ report_lines filename d, Ok tt).
Proof.
  rewrite listed_in_range_split. intros H. apply andb_true_iff in H.
  destruct H as [Hexc Hinc].
  unfold analyze_profile, report_lines. cbv zeta.
  unfold bind at 1. unfold print at 1.
  unfold bind at 1. unfold print at 1.
  unfold bind at 1. unfold print at 1.
  unfold bind at 1.
  rewrite for_each_frames_ok;
    [|intros x Hx; exact (listed_total_nonzero Exclusive d x Hx) | exact Hexc].
  unfold bind at 1. unfold print at 1.
  unfold bind at 1.
  rewrite for_each_frames_ok;
    [|intros x Hx; exact (listed_total_nonzero Inclusive d x Hx) | exact Hinc].
  unfold bind at 1. unfold print at 1.
  unfold bind at 1. rewrite for_each_targets.
  unfold print. repeat rewrite <- app_assoc. reflexivity.
Qed.

Lemma analyze_profile_index_error (filename : str) (d : profile_data)
      (out : list line) :
  listed_in_range d = false ->
  exists out', analyze_profile filename d out = (out', Raise IndexError).
Proof.
  rewrite listed_in_range_split. intros H.
  unfold analyze_profile. cbv zeta.
  unfold bind at 1. unfold print at 1.
  unfold bind at 1. unfold print at 1.
  unfold bind at 1. unfold print at 1.
  unfold bind at 1.
  destruct (forallb _ (most_common 20 (exclusive_counter (accumulate d))))
    eqn:Hexc.
  - rewrite for_each_frames_ok;
      [|intros x Hx; exact (listed_total_nonzero Exclusive d x Hx)
       | exact Hexc].
    unfold bind at 1. unfold print at 1.
    unfold bind at 1. simpl in H.
    match goal with
    | |- context [for_each ?items ?body ?o] =>
        destruct (for_each_frames_bad (total_samples (accumulate d))
                    (frame_names_of (frames d)) items o) as (out' & Hbad)
    end;
      [intros x Hx; exact (listed_total_nonzero Inclusive d x Hx) | exact H|].
    rewrite Hbad. now exists out'.
  - match goal with
    | |- context [for_each ?items ?body ?o] =>
        destruct (for_each_frames_bad (total_samples (accumulate d))
                    (frame_names_of (frames d)) items o) as (out' & Hbad)
    end;
      [intros x Hx; exact (listed_total_nonzero Exclusive d x Hx)
      | exact Hexc|].
    rewrite Hbad. now exists out'.
Qed.

Lemma for_each_frames_stop (total : Z) (names : list str)
      (items : list (Z * Z)) (out : list line) :
  (forall x, In x items -> total <> 0) ->
  forallb (fun item => in_range names (fst item)) items = false ->
  exists good rest,
    items = good ++ rest
    /\ for_each items (print_frame total names) out
       = (out ++ map (frame_line total names) good, Raise IndexError).
Proof.
  revert out. induction items as [|x items IH]; intros out Ht Hall.
  - discriminate.
  - cbn [forallb] in Hall. cbn [for_each]. unfold bind.
    rewrite print_frame_cases.
    destruct (Z.eqb_spec total 0) as [H0|_];
      [exfalso; apply (Ht x); [now left | exact H0]|].
    destruct (in_range names (fst x)).
    + simpl in Hall.
      destruct (IH (out ++ [frame_line total names x]))
        as (good & rest & -> & Hrun);
        [intros y Hy; apply (Ht y); now right | exact Hall|].
      exists (x :: good), rest. split; [reflexivity|].
      rewrite Hrun. cbn [map]. rewrite <- app_assoc. reflexivity.
    + exists [], (x :: items). split; [reflexivity|].
      cbn [map]. now rewrite app_nil_r.
Qed.

Lemma frame_lines_no_target (total : Z) (names : list str)
      (items : list (Z * Z)) :
  forallb (fun l => negb (is_target_line l))
          (map (frame_line total names) items) = true.
Proof. induction items as [|x items IH]; [reflexivity | exact IH]. Qed.

(** What is printed when a name lookup stops the report: a part of the
    report that ends inside one of the two listings. *)
Lemma analyze_profile_stops (filename : str) (d : profile_data)
      (out : list line) :
  listed_in_range d = false ->
  exists lines rest,
    analyze_profile filename d out = (out ++ lines, Raise IndexError)
    /\ report_lines filename d = lines ++ rest
    /\ forallb (fun l => negb (is_target_line l)) lines = true.
Proof.
  rewrite listed_in_range_split. intros H.
  unfold analyze_profile, report_lines. cbv zeta.
  unfold bind at 1. unfold print at 1.
  unfold bind at 1. unfold print at 1.
  unfold bind at 1. unfold print at 1.
  unfold bind at 1.
  destruct (forallb _ (most_common 20 (exclusive_counter (accumulate d))))
    eqn:Hexc.
  - rewrite for_each_frames_ok;
      [|intros x Hx; exact (listed_total_nonzero Exclusive d x Hx)
       | exact Hexc].
    unfold bind at 1. unfold print at 1.
    unfold bind at 1. simpl in H.
    match goal with
    | |- context [for_each ?items ?body ?o] =>
        destruct (for_each_frames_stop (total_samples (accumulate d))
                    (frame_names_of (frames d)) items o)
          as (good & rest & Hsplit & Hbad)
    end;
      [intros x Hx; exact (listed_total_nonzero Inclusive d x Hx) | exact H|].
    rewrite Hbad, Hsplit.
    eexists. eexists. split; [|split].
    + repeat (rewrite <- app_assoc || rewrite <- app_comm_cons).
      cbn [app]. reflexivity.
    + rewrite map_app.
      repeat (rewrite <- app_assoc || rewrite <- app_comm_cons).
      cbn [app]. reflexivity.
    + cbn [forallb is_target_line negb andb].
      rewrite forallb_app, frame_lines_no_target. cbn [forallb andb].
      cbn [is_target_line negb andb]. apply frame_lines_no_target.
  - match goal with
    | |- context [for_each ?items ?body ?o] =>
        destruct (for_each_frames_stop (total_samples (accumulate d))
                    (frame_names_of (frames d)) items o)
          as (good & rest & Hsplit & Hbad)
    end;
      [intros x Hx; exact (listed_total_nonzero Exclusive d x Hx)
      | exact Hexc|].
    rewrite Hbad, Hsplit.
    eexists. eexists. split; [|split].
    + repeat (rewrite <- app_assoc || rewrite <- app_comm_cons).
      cbn [app]. reflexivity.
    + rewrite map_app.
      repeat (rewrite <- app_assoc || rewrite <- app_comm_cons).
      cbn [app]. reflexivity.
    + cbn [forallb is_target_line negb andb]. apply frame_lines_no_target.
Qed.

End ReportLines.

Section ReportOutcome.

Context {PS : PySet}.
Import Counter CounterFacts.
Local Open Scope Z_scope.

Lemma flat_map_all_empty (f : list Z -> list Z) (ss : list (list Z)) :
  f [] = [] -> forallb is_empty ss = true -> flat_map f ss = [].
Proof.
  intros Hf. induction ss as [|s ss IH]; intros H; [reflexivity|].
  cbn [forallb] in H. apply andb_true_iff in H. destruct H as [Hs H].
  destruct s; [|discriminate]. cbn [flat_map]. now rewrite Hf, IH.
Qed.

Lemma total_over_empty (ms : list (Z * str)) : total_over empty ms = 0.
Proof.
  unfold total_over. induction ms as [|m ms IH]; [reflexivity|].
  cbn [map]. rewrite sum_cons, IH. reflexivity.
Qed.

Lemma target_line_empty (c : counts) (names : list str) (ts : list str) :
  inclusive_counter c = empty ->
  flat_map (target_line c names) ts = [].
Proof.
  intros Hc. induction ts as [|t ts IH]; [reflexivity|].
  cbn [flat_map]. rewrite IH. unfold target_line.
  rewrite Hc, total_over_empty. reflexivity.
Qed.

(** X5: a listing line first divides, then looks the name up: with a
    zero total it stops on the division; otherwise an index from
    [-len(frame_names)] to [len(frame_names) - 1] gives the line, a
    negative index naming the frame counted from the end of the table,
    and any other index stops it with [IndexError], nothing printed. *)
Theorem print_frame_outcome (total : Z) (frame_names : list str)
        (frame_idx count : Z) (out : list line) :
  print_frame total frame_names (frame_idx, count) out
  = (if total =? 0 then (out, Raise ZeroDivisionError)
     else if in_range frame_names frame_idx
          then (out ++ [LFrame count
                               (inject_Z (100 * count) / inject_Z total)
                               (item_at frame_names frame_idx [])],
                Ok tt)
          else (out, Raise IndexError))
  /\ (in_range frame_names frame_idx = true ->
      item_at frame_names frame_idx []
      = nth (Z.to_nat (if frame_idx <? 0
                       then Z.of_nat (length frame_names) + frame_idx
                       else frame_idx))
            frame_names []).
Proof.
  split; [apply print_frame_cases|].
  unfold in_range, item_at. intros H. apply andb_true_iff in H.
  destruct H as [Hlo Hhi]. apply Z.leb_le in Hlo. apply Z.ltb_lt in Hhi.
  destruct (Z.ltb_spec frame_idx 0) as [Hneg|_]; [|reflexivity].
  assert (Hlt : (Z.to_nat (- frame_idx - 1) < length frame_names)%nat) by lia.
  rewrite (rev_nth frame_names [] Hlt). f_equal. lia.
Qed.

(** X6: when the indices of all listed items are in the range of the
    frame table, [analyze_profile] raises nothing and prints exactly the
    lines of [report_lines]: the heading and the total, the two listings
    with one line per listed item, and one line for each target whose
    inclusive sum is positive. *)
Theorem report_when_indices_in_range (filename : str) (d : profile_data)
        (out : list line) :
  listed_in_range d = true ->
  analyze_profile filename d out = (out ++ report_lines filename d, Ok tt).
Proof. apply analyze_profile_report. Qed.

(** X7: [analyze_profile] ends normally exactly when the indices of all
    listed items are in range, and with an [IndexError] exactly when one
    of them is not. *)
Theorem index_error_iff_listed_out_of_range (filename : str)
        (d : profile_data) (out : list line) :
  (snd (analyze_profile filename d out) = Ok tt
   <-> listed_in_range d = true)
  /\ (snd (analyze_profile filename d out) = Raise IndexError
      <-> listed_in_range d = false).
Proof.
  destruct (listed_in_range d) eqn:H.
  - rewrite (analyze_profile_report filename d out H). simpl.
    split; split; try reflexivity; discriminate.
  - destruct (analyze_profile_index_error filename d out H) as (out' & ->).
    simpl. split; split; try reflexivity; discriminate.
Qed.

(** X8: a document all of whose samples have an empty stack gives the
    six fixed lines, with the number of samples as the total: no frame
    is listed, no target is reported and nothing is divided. *)
Theorem report_of_empty_stacks (filename : str) (d : profile_data)
        (out : list line) :
  forallb is_empty (all_samples d) = true ->
  analyze_profile filename d out
  = (out ++ [LAnalyzing filename;
             LTotalSamples (Z.of_nat (length (all_samples d)));
             LTopExclusive filename; LTopInclusive filename;
             LSpecificChecks; LBlank],
     Ok tt).
Proof.
  intros Hall.
  assert (He : exclusive_counter (accumulate d) = empty).
  { rewrite accumulate_exclusive. unfold exclusive_events.
    now rewrite flat_map_all_empty. }
  assert (Hi : inclusive_counter (accumulate d) = empty).
  { rewrite accumulate_inclusive. unfold inclusive_events.
    now rewrite flat_map_all_empty. }
  rewrite analyze_profile_report.
  - unfold report_lines. cbv zeta.
    rewrite (target_line_empty _ _ _ Hi), He, Hi, total_is_length.
    reflexivity.
  - unfold listed_in_range, listed. rewrite He, Hi. reflexivity.
Qed.


(** X13: the script analyses the first capture and then the second, and
    an exception of the first ends the run there: a first capture that
    is missing stops the run after its heading; a first report stopped by
    [IndexError] is all the run prints, a part of the first report and
    nothing of the second capture; after a complete first report the
    run goes on as the analysis of the second capture does, with a
    missing second capture stopping it after the second heading and two
    complete reports printed one after the other. *)
Theorem profiles_main_runs_in_sequence (docs : str -> option profile_data)
        (out : list line) :
  let f1 := lit "profile.speedscope1.json" in
  let f3 := lit "profile.speedscope3.json" in
  (docs f1 = None ->
   profiles_main docs out = (out ++ [LAnalyzing f1], Raise FileNotFoundError))
  /\ (forall d1 : profile_data,
         docs f1 = Some d1 -> listed_in_range d1 = false ->
         profiles_main docs out = analyze_profile f1 d1 out
         /\ exists lines rest,
              profiles_main docs out = (out ++ lines, Raise IndexError)
              /\ report_lines f1 d1 = lines ++ rest)
  /\ (forall d1 : profile_data,
         docs f1 = Some d1 -> listed_in_range d1 = true ->
         docs f3 = None ->
         profiles_main docs out
         = (out ++ report_lines f1 d1 ++ [LAnalyzing f3],
            Raise FileNotFoundError))
  /\ (forall d1 d3 : profile_data,
         docs f1 = Some d1 -> listed_in_range d1 = true ->
         docs f3 = Some d3 ->
         profiles_main docs out
         = analyze_profile f3 d3 (out ++ report_lines f1 d1))
  /\ (forall d1 d3 : profile_data,
         docs f1 = Some d1 -> listed_in_range d1 = true ->
         docs f3 = Some d3 -> listed_in_range d3 = true ->
         profiles_main docs out
         = (out ++ report_lines f1 d1 ++ report_lines f3 d3, Ok tt)).
Proof.
  intros f1 f3. unfold profiles_main, analyze_profile_at. fold f1 f3.
  split; [|split; [|split; [|split]]].
  - intros ->. reflexivity.
  - intros d1 -> H1.
    destruct (analyze_profile_stops f1 d1 out H1)
      as (lines & rest & Hrun & Hrep & _).
    assert (Heq : bind (analyze_profile f1 d1)
                       (fun _ => match docs f3 with
                                 | Some d => analyze_profile f3 d
                                 | None =>
                                     bind (print (LAnalyzing f3))
                                          (fun _ => lift (Raise FileNotFoundError))
                                 end) out
                  = analyze_profile f1 d1 out).
    { unfold bind at 1. rewrite Hrun. reflexivity. }
    split; [exact Heq|].
    exists lines, rest. split; [|exact Hrep]. rewrite Heq. exact Hrun.
  - intros d1 -> H1 ->. unfold bind at 1.
    rewrite (analyze_profile_report f1 d1 out H1).
    unfold bind, print, lift. rewrite <- app_assoc. reflexivity.
  - intros d1 d3 -> H1 ->. unfold bind at 1.
    rewrite (analyze_profile_report f1 d1 out H1). reflexivity.
  - intros d1 d3 -> H1 -> H3. unfold bind at 1.
    rewrite (analyze_profile_report f1 d1 out H1).
    rewrite (analyze_profile_report f3 d3 _ H3), <- app_assoc. reflexivity.
Qed.

End ReportOutcome.

(** The frame index [-1] is reported under the name of the last frame of
    the table, here a frame without a name. *)
Lemma report_when_indices_in_range_witness :
  listed_in_range (PS := nodup_PySet) last_by_minus_one = true
  /\ analyze_profile (PS := nodup_PySet) (lit "p.json") last_by_minus_one []
     = ([LAnalyzing (lit "p.json"); LTotalSamples 1;
         LTopExclusive (lit "p.json"); LFrame 1 (100 # 1) (lit "unknown");
         LTopInclusive (lit "p.json"); LFrame 1 (100 # 1) (lit "main");
         LFrame 1 (100 # 1) (lit "unknown"); LSpecificChecks; LBlank],
        Ok tt).
Proof.
  assert (H : listed_in_range (PS := nodup_PySet) last_by_minus_one = true)
    by reflexivity.
  split; [exact H|].
  exact (@report_when_indices_in_range nodup_PySet (lit "p.json")
           last_by_minus_one [] H).
Defined.

(** Two samples with an empty stack: the total is 2 and nothing else is
    reported. *)
Lemma report_of_empty_stacks_witness :
  forallb is_empty (all_samples only_empty_stacks) = true
  /\ analyze_profile (PS := nodup_PySet) (lit "p.json") only_empty_stacks []
     = ([LAnalyzing (lit "p.json"); LTotalSamples 2;
         LTopExclusive (lit "p.json"); LTopInclusive (lit "p.json");
         LSpecificChecks; LBlank],
        Ok tt).
Proof.
  assert (H : forallb is_empty (all_samples only_empty_stacks) = true)
    by reflexivity.
  split; [exact H|].
  exact (@report_of_empty_stacks nodup_PySet (lit "p.json")
           only_empty_stacks [] H).
Defined.

(** In the inclusive listing of [ab_data], frame 0 has the count 1 of 2
    samples. *)
Lemma listed_percentage_bounds_witness :
  In (0, 1)%Z (Counter.most_common 20
                 (counter_of Inclusive
                             (accumulate (PS := nodup_PySet) ab_data)))
  /\ ((1 <= 1 <= total_samples (accumulate (PS := nodup_PySet) ab_data))%Z
      /\ exists pct,
           truediv (100 * 1)
                   (total_samples (accumulate (PS := nodup_PySet) ab_data))
           = Ok pct
           /\ 0 < pct /\ pct <= 100).
Proof.
  assert (H : In (0, 1)%Z
                 (Counter.most_common 20
                    (counter_of Inclusive
                                (accumulate (PS := nodup_PySet) ab_data))))
    by (right; left; reflexivity).
  split; [exact H|].
  exact (@listed_percentage_bounds nodup_PySet ab_data Inclusive (0, 1)%Z H).
Defined.

(** A leaf outside the frame table stops the report with [IndexError]
    after the heading of the first listing. *)
Example leaf_outside_report :
  analyze_profile (PS := nodup_PySet) (lit "p.json") leaf_outside []
  = ([LAnalyzing (lit "p.json"); LTotalSamples 1;
      LTopExclusive (lit "p.json")],
     Raise IndexError).
Proof. reflexivity. Qed.

(* ================================================================== *)
(** * analyze_profiles.py: sums over targets, sums over profiles       *)
(* ================================================================== *)

Section Sums.

Context {PS : PySet}.
Import Counter CounterFacts.
Local Open Scope Z_scope.

Lemma sum_map_le {A} (f g : A -> Z) (l : list A) :
  (forall x, In x l -> f x <= g x) -> sum (map f l) <= sum (map g l).
Proof.
  induction l as [|x l IH]; intros H; [reflexivity|].
  cbn [map]. rewrite !sum_cons.
  assert (f x <= g x) by (apply H; now left).
  assert (sum (map f l) <= sum (map g l))
    by (apply IH; intros y Hy; apply H; now right).
  lia.
Qed.

Lemma sum_map_add {A} (f g : A -> Z) (l : list A) :
  sum (map (fun x => f x + g x) l) = sum (map f l) + sum (map g l).
Proof.
  induction l as [|x l IH]; [reflexivity|].
  cbn [map]. rewrite !sum_cons, IH. lia.
Qed.

Lemma sum_map_zero {A} (f : A -> Z) (l : list A) :
  (forall x, In x l -> f x = 0) -> sum (map f l) = 0.
Proof.
  induction l as [|x l IH]; intros H; [reflexivity|].
  cbn [map]. rewrite sum_cons, (H x), IH; [reflexivity| |now left].
  intros y Hy. apply H. now right.
Qed.

(** A stack is the leaf of at most one of a list of distinct indices. *)
Lemma leaf_hits_le_1 (s : list Z) (ks : list Z) :
  NoDup ks -> sum (map (leaf_hit s) ks) <= 1.
Proof.
  induction 1 as [|k ks Hnin Hnd IH]; [unfold sum; simpl; lia|].
  cbn [map]. rewrite sum_cons. unfold leaf_hit at 1.
  destruct (is_leaf k s) eqn:Hk; [|lia].
  rewrite sum_map_zero; [lia|].
  intros j Hj. unfold leaf_hit.
  destruct (is_leaf j s) eqn:Hjs; [|reflexivity].
  exfalso. apply Hnin. destruct s as [|x s]; [discriminate|].
  unfold is_leaf in Hk, Hjs. apply Z.eqb_eq in Hk, Hjs.
  rewrite <- Hk, Hjs. exact Hj.
Qed.

Lemma count_if_cons {A} (f : A -> bool) (x : A) (l : list A) :
  count_if f (x :: l) = (if f x then 1 else 0) + count_if f l.
Proof.
  unfold count_if. cbn [filter]. destruct (f x); cbn [length]; lia.
Qed.

Lemma leaf_counts_le_samples (ss : list (list Z)) (ks : list Z) :
  NoDup ks ->
  sum (map (fun k => count_if (is_leaf k) ss) ks) <= Z.of_nat (length ss).
Proof.
  intros Hnd. induction ss as [|s ss IH].
  - rewrite sum_map_zero; [simpl; lia | reflexivity].
  - rewrite (map_ext _ (fun k => leaf_hit s k + count_if (is_leaf k) ss));
      [|intros k; apply count_if_cons].
    rewrite sum_map_add. pose proof (leaf_hits_le_1 s ks Hnd).
    cbn [length]. lia.
Qed.

Lemma matches_keys_NoDup (t : str) (names : list str) :
  NoDup (map fst (matches t names)).
Proof. unfold matches. apply NoDup_map_filter, enumerate_from_NoDup. Qed.

Lemma total_over_as_keys (c : Counter.t) (ms : list (Z * str)) :
  total_over c ms = sum (map (get c) (map fst ms)).
Proof. unfold total_over. now rewrite map_map. Qed.

(** X9: for every target the exclusive sum is at least 0, at most the
    inclusive sum and at most [total_samples]; so a target whose line is
    left out, its inclusive sum being 0, has the exclusive sum 0 too, and
    the exclusive percentage of a printed line is at most 100. *)
Theorem target_exclusive_sum_bounds (d : profile_data)
        (frame_names : list str) (t : str) :
  let c := accumulate d in
  let ms := matches t frame_names in
  0 <= total_over (exclusive_counter c) ms
  /\ total_over (exclusive_counter c) ms
     <= total_over (inclusive_counter c) ms
  /\ total_over (exclusive_counter c) ms <= total_samples c
  /\ (total_over (inclusive_counter c) ms = 0 ->
      total_over (exclusive_counter c) ms = 0).
Proof.
  intros c ms.
  assert (H0 : 0 <= total_over (exclusive_counter c) ms).
  { unfold total_over.
    rewrite <- (sum_map_zero (fun _ : Z * str => 0) ms) at 1
      by reflexivity.
    apply sum_map_le. intros p _. apply (get_bounds Exclusive d). }
  assert (Hle : total_over (exclusive_counter c) ms
                <= total_over (inclusive_counter c) ms).
  { unfold total_over. apply sum_map_le. intros p _.
    unfold c. rewrite exclusive_get, inclusive_get.
    apply count_if_le. intros s. apply is_leaf_mem. }
  repeat split; try assumption; try lia.
  rewrite total_over_as_keys. unfold c.
  rewrite (map_ext _ (fun k => count_if (is_leaf k) (all_samples d)));
    [|intros k; apply exclusive_get].
  rewrite total_is_length. apply leaf_counts_le_samples.
  apply matches_keys_NoDup.
Qed.

Lemma contains_trans (a b c : str) :
  contains a b = true -> contains b c = true -> contains a c = true.
Proof.
  rewrite !contains_iff. intros (p1 & q1 & ->) (p2 & q2 & ->).
  exists (p2 ++ p1), (q1 ++ q2). repeat rewrite <- app_assoc. reflexivity.
Qed.

Lemma sum_filter_le {A} (f1 f2 : A -> bool) (g : A -> Z) (l : list A) :
  (forall x, f2 x = true -> f1 x = true) -> (forall x, 0 <= g x) ->
  sum (map g (filter f2 l)) <= sum (map g (filter f1 l)).
Proof.
  intros Hf Hg. induction l as [|x l IH]; [reflexivity|].
  cbn [filter]. destruct (f2 x) eqn:H2.
  - rewrite (Hf x H2). cbn [map]. rewrite !sum_cons. lia.
  - destruct (f1 x); [|exact IH].
    cbn [map]. rewrite sum_cons. specialize (Hg x). lia.
Qed.

(** X10: when a target occurs, up to case, in another target, every
    frame the longer one matches is matched by the shorter one, and both
    sums of the shorter one are at least those of the longer one: the
    samples of [malloc] and of [dealloc] are counted again under
    [alloc]. *)
Theorem shorter_target_matches_more (d : profile_data)
        (frame_names : list str) (which : listing) :
  (forall t1 t2 : str,
      contains (lower t1) (lower t2) = true ->
      (forall p, In p (matches t2 frame_names) ->
                 In p (matches t1 frame_names))
      /\ total_over (counter_of which (accumulate d))
                    (matches t2 frame_names)
         <= total_over (counter_of which (accumulate d))
                       (matches t1 frame_names))
  /\ total_over (counter_of which (accumulate d))
                (matches (lit "malloc") frame_names)
     <= total_over (counter_of which (accumulate d))
                   (matches (lit "alloc") frame_names)
  /\ total_over (counter_of which (accumulate d))
                (matches (lit "dealloc") frame_names)
     <= total_over (counter_of which (accumulate d))
                   (matches (lit "alloc") frame_names).
Proof.
  assert (Hgen : forall t1 t2 : str,
             contains (lower t1) (lower t2) = true ->
             (forall p, In p (matches t2 frame_names) ->
                        In p (matches t1 frame_names))
             /\ total_over (counter_of which (accumulate d))
                           (matches t2 frame_names)
                <= total_over (counter_of which (accumulate d))
                              (matches t1 frame_names)).
  { intros t1 t2 H12. split.
    - intros p. unfold matches. rewrite !filter_In. intros [Hin H2].
      split; [exact Hin | exact (contains_trans _ _ _ H12 H2)].
    - unfold total_over, matches. apply sum_filter_le.
      + intros p. apply contains_trans, H12.
      + intros p. apply get_bounds. }
  split; [exact Hgen|].
  split; apply Hgen; reflexivity.
Qed.

(** X11: the counts depend on the samples alone, not on how the document
    groups them into profiles nor on its frame table: two documents with
    the same samples in the same order have the same total and the same
    two counters. *)
Theorem counts_depend_on_samples_only (d1 d2 : profile_data) :
  all_samples d1 = all_samples d2 ->
  accumulate d1 = accumulate d2.
Proof.
  intros H.
  pose proof (total_is_length d1) as Ht1.
  pose proof (total_is_length d2) as Ht2.
  pose proof (accumulate_exclusive d1) as He1.
  pose proof (accumulate_exclusive d2) as He2.
  pose proof (accumulate_inclusive d1) as Hi1.
  pose proof (accumulate_inclusive d2) as Hi2.
  unfold exclusive_events in *. unfold inclusive_events in *.
  rewrite H in Ht1, He1, Hi1.
  destruct (accumulate d1), (accumulate d2). simpl in *. congruence.
Qed.

(** X12: the counts of a document are the sums of the counts of its
    parts: with the profiles [ps1 ++ ps2] the total and, for every frame
    index, both counts are those of [ps1] plus those of [ps2]. *)
Theorem counts_add_over_profiles (fr1 fr2 fr : list (option str))
        (ps1 ps2 : list (list (list Z))) (which : listing) (k : Z) :
  let d1 := {| frames := fr1; profiles := ps1 |} in
  let d2 := {| frames := fr2; profiles := ps2 |} in
  let d := {| frames := fr; profiles := ps1 ++ ps2 |} in
  total_samples (accumulate d)
  = total_samples (accumulate d1) + total_samples (accumulate d2)
  /\ get (counter_of which (accumulate d)) k
     = get (counter_of which (accumulate d1)) k
       + get (counter_of which (accumulate d2)) k.
Proof.
  intros d1 d2 d.
  assert (Hs : all_samples d = all_samples d1 ++ all_samples d2).
  { unfold all_samples, d, d1, d2. cbn [profiles]. apply concat_app. }
  split.
  - rewrite !total_is_length, Hs, length_app. lia.
  - assert (Hc : forall f, count_if f (all_samples d)
                           = count_if f (all_samples d1)
                             + count_if f (all_samples d2)).
    { intros f. unfold count_if. rewrite Hs, filter_app, length_app. lia. }
    destruct which; simpl.
    + rewrite !exclusive_get. apply Hc.
    + rewrite !inclusive_get. apply Hc.
Qed.

End Sums.

(** The samples of [ab_data], grouped into two profiles and without a
    frame table. *)
Lemma counts_depend_on_samples_only_witness :
  all_samples {| frames := []; profiles := [[[0; 1]]; []; [[1]]]%Z |}
  = all_samples ab_data
  /\ accumulate (PS := nodup_PySet)
                {| frames := []; profiles := [[[0; 1]]; []; [[1]]]%Z |}
     = accumulate (PS := nodup_PySet) ab_data.
Proof.
  assert (H : all_samples
                {| frames := []; profiles := [[[0; 1]]; []; [[1]]]%Z |}
              = all_samples ab_data) by reflexivity.
  split; [exact H|].
  exact (@counts_depend_on_samples_only nodup_PySet _ _ H).
Defined.

(* ================================================================== *)
(** * compare_benchmarks.py: the lines of the table                    *)
(* ================================================================== *)

Section TableLines.

Variable py_int : str -> option Z.
Variable py_float : str -> option Q.

Lemma split_length (sep : ascii) (s : str) :
  length (split sep s) = S (count_occ ascii_dec s sep).
Proof.
  induction s as [|c s IH]; [reflexivity|].
  cbn [split]. destruct (Ascii.eqb_spec c sep) as [->|Hne].
  - rewrite count_occ_cons_eq by reflexivity. cbn [length]. now rewrite IH.
  - rewrite count_occ_cons_neq by exact Hne.
    destruct (split sep s) as [|f fs]; [discriminate | exact IH].
Qed.

Lemma split_app (sep : ascii) (m r : str) :
  split sep (m ++ sep :: r) = split sep m ++ split sep r.
Proof.
  induction m as [|c m IH].
  - cbn [app split]. now rewrite Ascii.eqb_refl.
  - cbn [app split]. rewrite IH. destruct (Ascii.eqb c sep); [reflexivity|].
    destruct (split sep m) as [|f fs] eqn:Hm; [|reflexivity].
    pose proof (split_length sep m) as Hl. rewrite Hm in Hl. discriminate.
Qed.

Lemma field_nth (parts : list str) (i : nat) :
  (i < length parts)%nat -> field parts i = Ok (nth i parts []).
Proof.
  intros H. unfold field.
  destruct (nth_error parts i) as [s|] eqn:Hn.
  - f_equal. symmetry. apply nth_error_nth. exact Hn.
  - apply nth_error_None in Hn. lia.
Qed.

Lemma parse_lines_all_ok (lines : list str) (rs : list (option bench_row))
      (acc : list bench_row) :
  Forall2 (fun line r => parse_line py_int py_float line = Ok r) lines rs ->
  parse_lines py_int py_float lines acc
  = Ok (acc ++ flat_map (fun r => match r with Some row => [row] | None => [] end)
                        rs).
Proof.
  intros H. revert acc. induction H as [|line r lines rs Hr _ IH]; intros acc.
  - simpl. now rewrite app_nil_r.
  - cbn [parse_lines flat_map]. rewrite Hr. cbn [rbind].
    destruct r as [row|]; rewrite IH.
    + now rewrite <- app_assoc.
    + reflexivity.
Qed.

Lemma parse_lines_first_error (pre post : list str) (line : str) (e : exn)
      (acc : list bench_row) :
  Forall (fun l => exists r, parse_line py_int py_float l = Ok r) pre ->
  parse_line py_int py_float line = Raise e ->
  parse_lines py_int py_float (pre ++ line :: post) acc = Raise e.
Proof.
  intros Hpre He. revert acc.
  induction Hpre as [|l pre (r & Hr) _ IH]; intros acc.
  - cbn [app parse_lines]. now rewrite He.
  - cbn [app parse_lines]. rewrite Hr. cbn [rbind]. destruct r; apply IH.
Qed.

(** X14: a line is split into one field more than it has [|] characters,
    and it is passed over, neither kept nor an error, exactly when it has
    fewer than 8 of them. *)
Theorem line_skipped_iff_few_pipes (line : str) :
  length (split "|"%char line)
  = S (count_occ ascii_dec line "|"%char)
  /\ (parse_line py_int py_float line = Ok None
      <-> (count_occ ascii_dec line "|"%char < 8)%nat).
Proof.
  split; [apply split_length|].
  rewrite parse_line_skips, split_length. lia.
Qed.

(** X15: a line of ten fields or more is read at the fields 2, 3 and 9
    alone: it is kept, with the three numbers, when [int] accepts the
    stripped fields 2 and 3 and [float] the stripped field 9, and it
    stops the run with [ValueError] otherwise; it never raises
    [IndexError]. *)
Theorem row_of_ten_fields (line : str) :
  (10 <= length (split "|"%char line))%nat ->
  parse_line py_int py_float line
  = match py_int (strip (nth 2 (split "|"%char line) [])),
          py_int (strip (nth 3 (split "|"%char line) [])),
          py_float (strip (nth 9 (split "|"%char line) [])) with
    | Some pop, Some regions, Some time => Ok (Some (pop, regions, time))
    | _, _, _ => Raise ValueError
    end.
Proof.
  intros Hlen. unfold parse_line.
  destruct (Nat.leb_spec 9 (length (split "|"%char line))) as [_|]; [|lia].
  rewrite !field_nth by lia. unfold rbind, to_int, to_float.
  destruct (py_int (strip (nth 2 (split "|"%char line) []))); [|reflexivity].
  destruct (py_int (strip (nth 3 (split "|"%char line) []))); [|reflexivity].
  destruct (py_float (strip (nth 9 (split "|"%char line) [])));
    reflexivity.
Qed.

(** X16: the rows are kept in the order of their lines, and a line that
    raises stops the whole parse with its exception: when every line is
    read without error the result is the rows of the kept lines in line
    order, and when a line raises after lines that do not, the result is
    that exception and no row is returned. *)
Theorem parse_lines_all_or_nothing :
  (forall (lines : list str) (rs : list (option bench_row)),
      Forall2 (fun line r => parse_line py_int py_float line = Ok r)
              lines rs ->
      parse_lines py_int py_float lines []
      = Ok (flat_map (fun r => match r with Some row => [row] | None => [] end)
                     rs))
  /\ (forall (pre post : list str) (line : str) (e : exn),
         Forall (fun l => exists r, parse_line py_int py_float l = Ok r) pre ->
         parse_line py_int py_float line = Raise e ->
         parse_lines py_int py_float (pre ++ line :: post) [] = Raise e).
Proof.
  split.
  - intros lines rs H. now rewrite (parse_lines_all_ok lines rs [] H).
  - intros pre post line e. apply parse_lines_first_error.
Qed.

(** X18: the block found ends with two line breaks, which [split] turns
    into two empty strings at the end; the slice [[2:-2]] drops those two
    and the first two lines, so the lines parsed are all the lines of
    the block after its second one. *)
Theorem block_lines_after_the_second (content g : str) :
  Re.search table_re content = Some g ->
  exists m,
    g = m ++ [nl; nl]
    /\ split nl g = split nl m ++ [[]; []]
    /\ parse_content py_int py_float content
       = parse_lines py_int py_float (skipn 2 (split nl m)) [].
Proof.
  intros Hs.
  destruct (ReFacts.search_sound _ _ _ Hs) as (Hlang & _).
  apply lang_table_re in Hlang. destruct Hlang as (a & b & Hg).
  exists (lit "| Runs" ++ a ++ [nl; "|"%char] ++ b).
  assert (Hg' : g = (lit "| Runs" ++ a ++ [nl; "|"%char] ++ b) ++ [nl; nl]).
  { rewrite Hg. repeat rewrite <- app_assoc. reflexivity. }
  assert (Hsplit : split nl g
                   = split nl (lit "| Runs" ++ a ++ [nl; "|"%char] ++ b)
                     ++ [[]; []]).
  { rewrite Hg'. rewrite split_app. reflexivity. }
  split; [exact Hg'|]. split; [exact Hsplit|].
  unfold parse_content. rewrite Hs. cbv zeta. unfold slice_2_m2.
  rewrite Hsplit, length_app. cbn [length].
  replace (length (split nl (lit "| Runs" ++ a ++ [nl; "|"%char] ++ b))
           + 2 - 2)%nat
    with (length (split nl (lit "| Runs" ++ a ++ [nl; "|"%char] ++ b)) + 0)%nat
    by lia.
  rewrite firstn_app_2. cbn [firstn]. rewrite app_nil_r. reflexivity.
Qed.

End TableLines.

(** A row of the benchmark layout has ten pipes and eleven fields. *)
Lemma row_of_ten_fields_witness :
  (10 <= length (split "|"%char
                       (lit "| 1 | 100 | 5 | a | b | c | d | e | 1.5 |")))%nat
  /\ parse_line dec_int dec_float
                (lit "| 1 | 100 | 5 | a | b | c | d | e | 1.5 |")
     = Ok (Some (100%Z, 5%Z, 3 # 2)).
Proof.
  assert (H : (10 <= length (split "|"%char
                 (lit "| 1 | 100 | 5 | a | b | c | d | e | 1.5 |")))%nat)
    by (vm_compute; repeat constructor).
  split; [exact H|].
  exact (row_of_ten_fields dec_int dec_float
           (lit "| 1 | 100 | 5 | a | b | c | d | e | 1.5 |") H).
Defined.

(** The block of [two_rows_report] is the whole report. *)
Lemma block_lines_after_the_second_witness :
  Re.search table_re two_rows_report = Some two_rows_report
  /\ exists m,
       two_rows_report = m ++ [nl; nl]
       /\ split nl two_rows_report = split nl m ++ [[]; []]
       /\ parse_content dec_int dec_float two_rows_report
          = parse_lines dec_int dec_float (skipn 2 (split nl m)) [].
Proof.
  assert (H : Re.search table_re two_rows_report = Some two_rows_report)
    by (vm_compute; reflexivity).
  split; [exact H|].
  exact (block_lines_after_the_second dec_int dec_float
           two_rows_report two_rows_report H).
Defined.

(* ================================================================== *)
(** * The regular expression: the first table is the one found         *)
(* ================================================================== *)

Section FirstMatch.

Import Re.

Lemma match_here_lit_inv (l : str) (p : pattern) (s g : str) :
  match_here (Lit l :: p) s = Some g ->
  exists s' g1, s = l ++ s' /\ g = l ++ g1 /\ match_here p s' = Some g1.
Proof.
  cbn [match_here].
  destruct (strip_prefix l s) as [s'|] eqn:Hl; [|discriminate].
  apply ReFacts.strip_prefix_Some in Hl.
  destruct (match_here p s') as [g1|] eqn:Hm; [|discriminate].
  intros [= <-]. now exists s', g1.
Qed.

(** A lazy [.*?] stops at the first place from which the rest of the
    pattern matches. *)
Lemma match_here_lazy_first (p : pattern) (s g : str) :
  match_here (LazyAny :: p) s = Some g ->
  exists a s' g1,
    s = a ++ s' /\ g = a ++ g1 /\ match_here p s' = Some g1
    /\ (forall a1 a2, a = a1 ++ a2 -> a2 <> [] ->
                      match_here p (a2 ++ s') = None).
Proof.
  cbn [match_here]. revert g. induction s as [|c s IH]; intros g.
  - destruct (match_here p []) as [m|] eqn:Hm; [|discriminate].
    intros [= <-]. exists [], [], m. repeat split; try assumption.
    intros a1 a2 H Hne. symmetry in H. apply app_eq_nil in H.
    destruct H as [_ ->]. contradiction.
  - destruct (match_here p (c :: s)) as [m|] eqn:Hm.
    + intros [= <-]. exists [], (c :: s), m. repeat split; try assumption.
      intros a1 a2 H Hne. symmetry in H. apply app_eq_nil in H.
      destruct H as [_ ->]. contradiction.
    + match goal with
      | |- option_map _ ?x = _ -> _ => destruct x as [m|] eqn:Hlazy
      end; [|discriminate].
      intros [= <-].
      destruct (IH _ eq_refl) as (a & s' & g1 & -> & -> & Hg1 & Hmin).
      exists (c :: a), s', g1. repeat split; try assumption.
      intros a1 a2 H Hne. destruct a1 as [|c' a1]; simpl in H.
      * subst a2. exact Hm.
      * injection H as _ H. exact (Hmin a1 a2 H Hne).
Qed.

(** The search stops at the first position from which the pattern
    matches. *)
Lemma search_first (p : pattern) (s g : str) :
  search p s = Some g ->
  exists pre s',
    s = pre ++ s' /\ match_here p s' = Some g
    /\ (forall p1 p2, pre = p1 ++ p2 -> p2 <> [] ->
                      match_here p (p2 ++ s') = None).
Proof.
  induction s as [|c s IH]; cbn [search].
  - destruct (match_here p []) as [m|] eqn:Hm; [|discriminate].
    intros [= <-]. exists [], []. repeat split; try assumption.
    intros p1 p2 H Hne. symmetry in H. apply app_eq_nil in H.
    destruct H as [_ ->]. contradiction.
  - destruct (match_here p (c :: s)) as [m|] eqn:Hm.
    + intros [= <-]. exists [], (c :: s). repeat split; try assumption.
      intros p1 p2 H Hne. symmetry in H. apply app_eq_nil in H.
      destruct H as [_ ->]. contradiction.
    + intros H. destruct (IH H) as (pre & s' & -> & Hg & Hmin).
      exists (c :: pre), s'. repeat split; try assumption.
      intros p1 p2 Hp Hne. destruct p1 as [|c' p1]; simpl in Hp.
      * subst p2. exact Hm.
      * injection Hp as _ Hp. exact (Hmin p1 p2 Hp Hne).
Qed.

(** An occurrence of [w] that starts in [s ++ tail], where [tail] is
    shorter than [w], starts inside [s]. *)
Lemma occurrence_inside {A} (x w y s tail : list A) :
  x ++ w ++ y = s ++ tail -> (length tail < length w)%nat ->
  exists s2, s = x ++ s2 /\ s2 <> [] /\ s2 ++ tail = w ++ y.
Proof.
  intros H Hlen. apply app_eq_app in H. destruct H as (l & [[-> H]|[-> H]]).
  - exfalso. apply (f_equal (@length A)) in H.
    rewrite !length_app in H. lia.
  - exists l. repeat split; [|now symmetry].
    intros ->. simpl in H. apply (f_equal (@length A)) in H.
    rewrite length_app in H. lia.
Qed.

Lemma no_earlier_occurrence (p : pattern) (w tail s s' : str)
      (rest_of : str -> str) :
  (length tail < length w)%nat ->
  (forall s1 s2, s = s1 ++ s2 -> s2 <> [] ->
                 match_here p (s2 ++ tail ++ s') = None) ->
  (forall y, lang p (w ++ rest_of y)
             /\ exists post, y ++ s' = rest_of y ++ post) ->
  contains w (s ++ tail) = false.
Proof.
  intros Hlen Hmin Hlang.
  destruct (contains w (s ++ tail)) eqn:Hc; [|reflexivity].
  exfalso. apply contains_iff in Hc. destruct Hc as (x & y & Hxy).
  symmetry in Hxy.
  destruct (occurrence_inside x w y s tail Hxy Hlen) as (s2 & -> & Hne & H2).
  specialize (Hmin x s2 eq_refl Hne).
  destruct (Hlang y) as (Hl & post & Hpost).
  apply (ReFacts.match_here_complete _ _ Hmin (w ++ rest_of y) post);
    [|exact Hl].
  rewrite app_assoc, H2, <- !app_assoc. f_equal. exact Hpost.
Qed.

(** X17: the block [parse_times] reads is the first table of the file:
    it starts at the first [| Runs] of the content, its header part runs
    to the first line break that is followed by [|], and it ends with
    the first empty line after that. *)
Theorem search_finds_first_table (content g : str) :
  Re.search table_re content = Some g ->
  exists pre a b post,
    content = pre ++ g ++ post
    /\ g = lit "| Runs" ++ a ++ [nl; "|"%char] ++ b ++ [nl; nl]
    /\ contains (lit "| Runs") (pre ++ lit "| Run") = false
    /\ contains [nl; "|"%char] (a ++ [nl]) = false
    /\ contains [nl; nl] (b ++ [nl]) = false.
Proof.
  intros Hs. unfold table_re in Hs.
  destruct (search_first _ _ _ Hs) as (pre & s0 & -> & H0 & Hmin0).
  destruct (match_here_lit_inv _ _ _ _ H0) as (s1 & g1 & -> & -> & H1).
  destruct (match_here_lazy_first _ _ _ H1)
    as (a & s2 & g2 & -> & -> & H2 & Hmina).
  destruct (match_here_lit_inv _ _ _ _ H2) as (s3 & g3 & -> & -> & H3).
  destruct (match_here_lazy_first _ _ _ H3)
    as (b & s4 & g4 & -> & -> & H4 & Hminb).
  destruct (match_here_lit_inv _ _ _ _ H4) as (post & g5 & -> & -> & H5).
  cbn [match_here] in H5. injection H5 as <-.
  exists pre, a, b, post. split; [|split; [|split; [|split]]].
  - repeat (rewrite <- app_assoc || rewrite <- app_comm_cons).
      reflexivity.
  - rewrite app_nil_r. reflexivity.
  - apply (no_earlier_occurrence
             [Lit (lit "| Runs"); LazyAny; Lit [nl; "|"%char]; LazyAny;
              Lit [nl; nl]]
             (lit "| Runs") (lit "| Run") pre
             ("s"%char :: a ++ [nl; "|"%char] ++ b ++ [nl; nl] ++ post)
             (fun y => y ++ "s"%char :: a ++ [nl; "|"%char] ++ b ++ [nl; nl]));
      [simpl; lia | exact Hmin0 |].
    intros y. split.
    + apply lang_table_re. exists (y ++ "s"%char :: a), b.
      repeat (rewrite <- app_assoc || rewrite <- app_comm_cons).
      reflexivity.
    + exists post. repeat (rewrite <- app_assoc || rewrite <- app_comm_cons).
      reflexivity.
  - apply (no_earlier_occurrence
             [Lit [nl; "|"%char]; LazyAny; Lit [nl; nl]]
             [nl; "|"%char] [nl] a
             ("|"%char :: b ++ [nl; nl] ++ post)
             (fun y => y ++ "|"%char :: b ++ [nl; nl]));
      [simpl; lia | exact Hmina |].
    intros y. split.
    + cbn [lang]. eexists. split; [reflexivity|].
      exists (y ++ "|"%char :: b). eexists. split;
        [|eexists; split; [reflexivity | reflexivity]].
      rewrite app_nil_r. repeat (rewrite <- app_assoc || rewrite <- app_comm_cons).
      reflexivity.
    + exists post. repeat (rewrite <- app_assoc || rewrite <- app_comm_cons).
      reflexivity.
  - apply (no_earlier_occurrence [Lit [nl; nl]] [nl; nl] [nl] b
             (nl :: post) (fun _ => []));
      [simpl; lia | exact Hminb |].
    intros y. split.
    + cbn [lang]. exists []. split; reflexivity.
    + exists (y ++ nl :: post). reflexivity.
Qed.

End FirstMatch.

(* ================================================================== *)
(** * compare_benchmarks.py: the run of the comparison                 *)
(* ================================================================== *)

Section ComparisonRun.

Variable py_int : str -> option Z.
Variable py_float : str -> option Q.
Variable fs : str -> option str.


Lemma compare_case_old_raises (grand : Q * Q) (name old_file new_file : str)
      (e : exn) (out : list cline) :
  parse_times py_int py_float fs old_file = Raise e ->
  compare_case py_int py_float fs grand (name, (old_file, new_file)) out
  = (out ++ [CCase name; CRule "-"%char], Raise e).
Proof.
  intros H. unfold compare_case, bind, print, lift. rewrite H.
  rewrite <- app_assoc. reflexivity.
Qed.

Lemma compare_case_new_raises (grand : Q * Q) (name old_file new_file : str)
      (old_times : list bench_row) (e : exn) (out : list cline) :
  parse_times py_int py_float fs old_file = Ok old_times ->
  parse_times py_int py_float fs new_file = Raise e ->
  compare_case py_int py_float fs grand (name, (old_file, new_file)) out
  = (out ++ [CCase name; CRule "-"%char], Raise e).
Proof.
  intros Ho Hn. unfold compare_case, bind, print, lift. rewrite Ho, Hn.
  rewrite <- app_assoc. reflexivity.
Qed.

Lemma compare_case_reads_both (grand : Q * Q) (name old_file new_file : str)
      (old_times new_times : list bench_row) (out : list cline) :
  parse_times py_int py_float fs old_file = Ok old_times ->
  parse_times py_int py_float fs new_file = Ok new_times ->
  exists out',
    compare_case py_int py_float fs grand (name, (old_file, new_file)) out
    = (out',
       Ok (add_totals py_int py_float fs grand
                      (name, (old_file, new_file)))).
Proof.
  intros Ho Hn. unfold add_totals, case_totals. cbn [fst snd].
  rewrite Ho, Hn. unfold compare_case.
  unfold bind at 1. unfold print at 1.
  unfold bind at 1. unfold print at 1.
  unfold bind at 1. unfold lift at 1. rewrite Ho.
  unfold bind at 1. unfold lift at 1. rewrite Hn.
  unfold bind at 1. unfold print at 1.
  unfold bind at 1. unfold print at 1.
  unfold bind at 1.
  match goal with
  | |- context [compare_rows ?ps ?t ?o] =>
      destruct (compare_rows_shown ps t o) as (lines & Hrun & _)
  end.
  rewrite Hrun. cbn [fst snd].
  match goal with
  | |- context [pct_of ?c ?b] =>
      destruct (pct_of_guarded c b) as (pct & Hpct & _)
  end.
  unfold bind, lift, print, ret. rewrite Hpct.
  eexists. reflexivity.
Qed.

Lemma compare_cases_outcome (cases : list (str * (str * str)))
      (grand : Q * Q) (out : list cline) :
  exists out',
    compare_cases py_int py_float fs cases grand out
    = (out',
       match first_error py_int py_float fs cases with
       | Some e => Raise e
       | None => Ok (fold_left (add_totals py_int py_float fs) cases grand)
       end).
Proof.
  revert grand out. induction cases as [|[name [old_file new_file]] cases IH];
    intros grand out.
  - exists out. reflexivity.
  - cbn [compare_cases first_error fold_left]. unfold bind.
    destruct (parse_times py_int py_float fs old_file) as [o|e] eqn:Ho.
    + destruct (parse_times py_int py_float fs new_file) as [n|e] eqn:Hn.
      * destruct (compare_case_reads_both grand name old_file new_file
                    o n out Ho Hn) as (out1 & ->).
        apply IH.
      * rewrite (compare_case_new_raises grand name old_file new_file
                   o e out Ho Hn).
        eexists. reflexivity.
    + rewrite (compare_case_old_raises grand name old_file new_file
                 e out Ho).
      eexists. reflexivity.
Qed.

(** X19: the rows are paired by position and the pairing stops with the
    shorter list: as many row lines are printed as the shorter list has
    rows, and the rows of the longer list beyond that change nothing. *)
Theorem paired_rows_stop_at_shorter (old_times new_times : list bench_row)
        (totals : Q * Q) (out : list cline) :
  let n := Nat.min (length old_times) (length new_times) in
  (exists lines totals',
      compare_rows (combine old_times new_times) totals out
      = (out ++ lines, Ok totals')
      /\ length lines = n)
  /\ compare_rows (combine old_times new_times) totals out
     = compare_rows (combine (firstn n old_times) (firstn n new_times))
                    totals out.
Proof.
  intros n. split.
  - destruct (compare_rows_shown (combine old_times new_times) totals out)
      as (lines & Hrun & Hall).
    exists lines. eexists. split; [exact Hrun|].
    rewrite <- (Forall2_length Hall). apply length_combine.
  - rewrite <- combine_firstn. unfold n. rewrite <- length_combine.
    now rewrite firstn_all.
Qed.


(** X21: the run ends with the exception of the first file, in reading
    order, that [parse_times] does not read, and normally when it reads
    all six. *)
Theorem main_outcome_is_first_error (out : list cline) :
  snd (main py_int py_float fs out)
  = match first_error py_int py_float fs
                      (combine names (combine old_files new_files)) with
    | Some e => Raise e
    | None => Ok tt
    end.
Proof.
  unfold main.
  unfold bind at 1. unfold print at 1.
  unfold bind at 1. unfold print at 1.
  unfold bind at 1.
  match goal with
  | |- context [compare_cases _ _ _ ?cs ?g ?o] =>
      destruct (compare_cases_outcome cs g o) as (out' & ->)
  end.
  destruct (first_error _ _ _ _); [reflexivity|].
  match goal with
  | |- context [pct_of ?c ?b] =>
      destruct (pct_of_guarded c b) as (pct & Hpct & _)
  end.
  unfold bind, lift, print. rewrite Hpct. reflexivity.
Qed.

(** X22: when every file is read, the totals handed from case to case
    are the starting totals with the old and the new sum of each case
    added in turn. *)
Theorem grand_totals_are_sums (cases : list (str * (str * str)))
        (grand : Q * Q) (out : list cline) :
  first_error py_int py_float fs cases = None ->
  exists out',
    compare_cases py_int py_float fs cases grand out
    = (out', Ok (fold_left (add_totals py_int py_float fs) cases grand)).
Proof.
  intros H. destruct (compare_cases_outcome cases grand out) as (out' & Hrun).
  rewrite H in Hrun. now exists out'.
Qed.

End ComparisonRun.

(** X23: with a positive old time the percentage has the sign of the
    change: it is negative exactly when the new time is the smaller one
    and positive exactly when it is the larger one. *)
Theorem percentage_has_sign_of_change (old_t new_t : Q) :
  0 < old_t ->
  exists pct,
    pct_of (new_t - old_t) old_t = Ok pct
    /\ (pct < 0 <-> new_t < old_t)
    /\ (0 < pct <-> old_t < new_t).
Proof.
  intros Hpos.
  destruct (pct_of_guarded (new_t - old_t) old_t) as (pct & Hpct & Hg & _).
  exists pct. split; [exact Hpct|].
  assert (Hne : ~ old_t == 0).
  { intros H. rewrite H in Hpos. exact (Qlt_irrefl 0 Hpos). }
  assert (Hk : 0 < 100 / old_t).
  { apply Qlt_shift_div_l; [exact Hpos|]. rewrite Qmult_0_l. reflexivity. }
  assert (Heq : pct == (new_t - old_t) * (100 / old_t)).
  { rewrite (Hg Hpos). field. exact Hne. }
  rewrite Heq. split.
  - rewrite <- (Qmult_0_l (100 / old_t)) at 1.
    rewrite (Qmult_lt_r _ _ _ Hk).
    split; intros H.
    + apply (Qplus_lt_l _ _ (- old_t)).
      setoid_replace (old_t + - old_t) with 0 by ring. exact H.
    + apply (Qplus_lt_l _ _ (- old_t)) in H.
      setoid_replace (old_t + - old_t) with 0 in H by ring. exact H.
  - rewrite <- (Qmult_0_l (100 / old_t)) at 1.
    rewrite (Qmult_lt_r _ _ _ Hk).
    split; intros H.
    + apply (Qplus_lt_l _ _ (- old_t)).
      setoid_replace (old_t + - old_t) with 0 by ring. exact H.
    + apply (Qplus_lt_l _ _ (- old_t)) in H.
      setoid_replace (old_t + - old_t) with 0 in H by ring. exact H.
Qed.

(** The table of [two_rows_report] starts the report and is all of it. *)
Lemma search_finds_first_table_witness :
  Re.search table_re two_rows_report = Some two_rows_report
  /\ exists pre a b post,
       two_rows_report = pre ++ two_rows_report ++ post
       /\ two_rows_report
          = lit "| Runs" ++ a ++ [nl; "|"%char] ++ b ++ [nl; nl]
       /\ contains (lit "| Runs") (pre ++ lit "| Run") = false
       /\ contains [nl; "|"%char] (a ++ [nl]) = false
       /\ contains [nl; nl] (b ++ [nl]) = false.
Proof.
  assert (H : Re.search table_re two_rows_report = Some two_rows_report)
    by (vm_compute; reflexivity).
  split; [exact H|].
  exact (search_finds_first_table two_rows_report two_rows_report H).
Defined.


(** One case whose two files hold the table of [two_rows_report]. *)
Lemma grand_totals_are_sums_witness :
  first_error dec_int dec_float (every_file two_rows_report)
              [(lit "Ackley", (lit "old.md", lit "new.md"))] = None
  /\ exists out',
       compare_cases dec_int dec_float (every_file two_rows_report)
                     [(lit "Ackley", (lit "old.md", lit "new.md"))] (0, 0) []
       = (out',
          Ok (fold_left
                (add_totals dec_int dec_float (every_file two_rows_report))
                [(lit "Ackley", (lit "old.md", lit "new.md"))] (0, 0))).
Proof.
  assert (H : first_error dec_int dec_float (every_file two_rows_report)
                [(lit "Ackley", (lit "old.md", lit "new.md"))] = None)
    by (vm_compute; reflexivity).
  split; [exact H|].
  exact (grand_totals_are_sums dec_int dec_float
           (every_file two_rows_report)
           [(lit "Ackley", (lit "old.md", lit "new.md"))] (0, 0) [] H).
Defined.

(** An old time of 2 seconds and a new time of 1 second. *)
Lemma percentage_has_sign_of_change_witness :
  0 < 2
  /\ exists pct,
       pct_of (1 - 2) 2 = Ok pct
       /\ (pct < 0 <-> 1 < 2)
       /\ (0 < pct <-> 2 < 1).
Proof.
  assert (H : 0 < 2) by reflexivity.
  split; [exact H|].
  exact (percentage_has_sign_of_change 2 1 H).
Defined.

(* ================================================================== *)
(** * analyze_profiles.py: the target checks                           *)
(* ================================================================== *)

Section TargetChecks.

Context {PS : PySet}.
Import Counter CounterFacts.
Local Open Scope Z_scope.

Lemma sum_Permutation (l l' : list Z) : Permutation l l' -> sum l = sum l'.
Proof.
  induction 1 as [|x l l' _ IH|x y l|l l' l'' _ IH1 _ IH2].
  - reflexivity.
  - rewrite !sum_cons, IH. reflexivity.
  - rewrite !sum_cons. lia.
  - now rewrite IH1.
Qed.

Lemma sum_as_fold_right {A} (f : A -> Z) (l : list A) :
  sum (map f l) = fold_right (fun p acc => f p + acc) 0 l.
Proof.
  induction l as [|x l IH]; [reflexivity|].
  cbn [map fold_right]. rewrite sum_cons, IH. reflexivity.
Qed.

Lemma matches_In (t : str) (names : list str) (idx : Z) (name : str) :
  In (idx, name) (matches t names) <->
  0 <= idx /\ nth_error names (Z.to_nat idx) = Some name
  /\ ci_substring t name.
Proof.
  unfold matches. rewrite filter_In.
  unfold enumerate. rewrite enumerate_from_In. simpl snd.
  rewrite contains_lower_iff, Z.sub_0_r. tauto.
Qed.

Lemma total_over_nonneg (which : listing) (d : profile_data)
      (ms : list (Z * str)) :
  0 <= total_over (counter_of which (accumulate d)) ms.
Proof.
  unfold total_over.
  rewrite <- (sum_map_zero (fun _ : Z * str => 0) ms) at 1 by reflexivity.
  apply sum_map_le. intros p _. apply get_bounds.
Qed.

(** The sum over the matches is the sum, over any list that holds each
    matching frame once, of the numbers of samples. *)
Lemma total_over_counts (which : listing) (d : profile_data) (t : str)
      (names : list str) (l : list (Z * str)) :
  NoDup l ->
  (forall p, In p l <-> In p (matches t names)) ->
  total_over (counter_of which (accumulate d)) (matches t names)
  = fold_right
      (fun p acc =>
         count_if (match which with
                   | Exclusive => is_leaf (fst p)
                   | Inclusive => mem (fst p)
                   end) (all_samples d) + acc)
      0 l.
Proof.
  intros Hnd Hin.
  assert (Hperm : Permutation (matches t names) l).
  { apply NoDup_Permutation.
    - apply (NoDup_map_inv fst), matches_keys_NoDup.
    - exact Hnd.
    - intros p. symmetry. apply Hin. }
  unfold total_over.
  rewrite (sum_Permutation _ _ (Permutation_map _ Hperm)).
  rewrite <- sum_as_fold_right. f_equal. apply map_ext. intros p.
  destruct which; simpl.
  - apply exclusive_get.
  - apply inclusive_get.
Qed.

Lemma report_target_lines (filename : str) (d : profile_data) (x : line) :
  is_target_line x = true ->
  (In x (report_lines filename d)
   <-> In x (flat_map (target_line (accumulate d)
                                   (frame_names_of (frames d)))
                      targets)).
Proof.
  intros Hx. unfold report_lines. cbv zeta.
  assert (Hframes : forall total names items,
             ~ In x (map (frame_line total names) items)).
  { intros total names items H. apply in_map_iff in H.
    destruct H as (item & Heq & _). rewrite <- Heq in Hx. discriminate. }
  rewrite !in_app_iff. split.
  - intros [H|[H|[H|[H|[H|[H|H]]]]]]; try exact H.
    + destruct H as [Heq|[Heq|[Heq|[]]]]; rewrite <- Heq in Hx;
        discriminate.
    + exfalso. exact (Hframes _ _ _ H).
    + destruct H as [Heq|[]]. rewrite <- Heq in Hx. discriminate.
    + exfalso. exact (Hframes _ _ _ H).
    + destruct H as [Heq|[]]. rewrite <- Heq in Hx. discriminate.
    + destruct H as [Heq|[]]. rewrite <- Heq in Hx. discriminate.
  - intros H. do 5 right. now left.
Qed.

Lemma target_line_In (d : profile_data) (names : list str) (ts : list str)
      (t' : str) (a : Z) (pa : Q) (b : Z) (pb : Q) :
  In (LTarget t' a pa b pb) (flat_map (target_line (accumulate d) names) ts)
  <-> In t' ts
      /\ a = total_over (inclusive_counter (accumulate d)) (matches t' names)
      /\ a <> 0
      /\ b = total_over (exclusive_counter (accumulate d)) (matches t' names)
      /\ pa = (inject_Z (100 * a)
               / inject_Z (total_samples (accumulate d)))%Q
      /\ pb = (inject_Z (100 * b)
               / inject_Z (total_samples (accumulate d)))%Q.
Proof.
  rewrite in_flat_map. split.
  - intros (t'' & Hin & Hl). unfold target_line in Hl.
    destruct (Z.ltb_spec 0 (total_over (inclusive_counter (accumulate d))
                                       (matches t'' names))) as [Hpos|_];
      [|destruct Hl].
    destruct Hl as [Heq|[]]. injection Heq as Ht Ha Hpa Hb Hpb.
    subst t''. rewrite <- Ha, <- Hb in *.
    repeat split; try assumption; try reflexivity;
      try (symmetry; assumption). lia.
  - intros (Hin & Ha & Hne & Hb & Hpa & Hpb). exists t'. split; [exact Hin|].
    unfold target_line.
    pose proof (total_over_nonneg Inclusive d (matches t' names)) as H0.
    simpl in H0.
    destruct (Z.ltb_spec 0 (total_over (inclusive_counter (accumulate d))
                                       (matches t' names))) as [_|Hle];
      [|lia].
    left. rewrite Hpa, Hpb, Ha, Hb. reflexivity.
Qed.

(** C6: for a target [t], the matches are the frames of the table whose
    name holds [t] as a run of consecutive characters up to the case of
    the letters (no word boundary is asked for), each frame once; the two
    sums are the sums over those frames of the numbers of samples that
    hold the frame and of which it is the leaf; the loop body prints the
    line of [t], with both sums, exactly when the inclusive sum is not 0;
    and in a report that reaches the checks a target line is present
    exactly for the targets of the list whose inclusive sum is not 0,
    while a report stopped by a name lookup has no target line. *)
Theorem target_check (filename : str) (d : profile_data) (t : str) :
  let c := accumulate d in
  let frame_names := frame_names_of (frames d) in
  let ms := matches t frame_names in
  let total_inc := total_over (inclusive_counter c) ms in
  let total_exc := total_over (exclusive_counter c) ms in
  let is_match := fun (idx : Z) (name : str) =>
    0 <= idx /\ nth_error frame_names (Z.to_nat idx) = Some name
    /\ ci_substring t name in
  (forall (idx : Z) (name : str), In (idx, name) ms <-> is_match idx name)
  /\ NoDup (map fst ms)
  /\ map fst (matches (lit "Mutex") mutex_names) = [0; 1; 2]
  /\ map fst (matches (lit "mUTEX") mutex_names) = [0; 1; 2]
  /\ (forall l : list (Z * str),
         NoDup l ->
         (forall (idx : Z) (name : str),
             In (idx, name) l <-> is_match idx name) ->
         total_inc
         = fold_right (fun p acc =>
                         count_if (mem (fst p)) (all_samples d) + acc) 0 l
         /\ total_exc
            = fold_right (fun p acc =>
                            count_if (is_leaf (fst p)) (all_samples d) + acc)
                         0 l)
  /\ (forall out : list line,
         check_target c frame_names t out
         = if total_inc =? 0 then (out, Ok tt)
           else (out ++ [LTarget t total_inc
                                 (inject_Z (100 * total_inc)
                                  / inject_Z (total_samples c))
                                 total_exc
                                 (inject_Z (100 * total_exc)
                                  / inject_Z (total_samples c))],
                 Ok tt))
  /\ (listed_in_range d = true ->
      forall (t' : str) (a : Z) (pa : Q) (b : Z) (pb : Q),
        In (LTarget t' a pa b pb) (fst (analyze_profile filename d []))
        <-> In t' targets
            /\ a = total_over (inclusive_counter c) (matches t' frame_names)
            /\ a <> 0
            /\ b = total_over (exclusive_counter c) (matches t' frame_names)
            /\ pa = (inject_Z (100 * a) / inject_Z (total_samples c))%Q
            /\ pb = (inject_Z (100 * b) / inject_Z (total_samples c))%Q)
  /\ (listed_in_range d = false ->
      forall l : line,
        In l (fst (analyze_profile filename d [])) ->
        is_target_line l = false).
Proof.
  intros c frame_names ms total_inc total_exc is_match.
  assert (Hms : forall idx name, In (idx, name) ms <-> is_match idx name)
    by (intros idx name; apply matches_In).
  split; [exact Hms|].
  split; [apply matches_keys_NoDup|].
  split; [reflexivity|].
  split; [reflexivity|].
  split; [|split; [|split]].
  - intros l Hnd Hl.
    assert (Hsame : forall p, In p l <-> In p (matches t frame_names)).
    { intros [idx name]. rewrite Hl. symmetry. apply Hms. }
    split.
    + exact (total_over_counts Inclusive d t frame_names l Hnd Hsame).
    + exact (total_over_counts Exclusive d t frame_names l Hnd Hsame).
  - intros out. unfold c. rewrite check_target_line. unfold target_line.
    fold c. fold frame_names. fold ms. fold total_inc. fold total_exc.
    pose proof (total_over_nonneg Inclusive d ms) as H0. simpl in H0.
    fold c in H0. fold total_inc in H0.
    destruct (Z.ltb_spec 0 total_inc), (Z.eqb_spec total_inc 0);
      try lia; [reflexivity | now rewrite app_nil_r].
  - intros Hok t' a pa b pb.
    rewrite (analyze_profile_report filename d [] Hok). cbn [fst app].
    rewrite report_target_lines by reflexivity.
    apply target_line_In.
  - intros Hbad l Hin.
    destruct (analyze_profile_stops filename d [] Hbad)
      as (lines & rest & Hrun & _ & Hnone).
    rewrite Hrun in Hin. cbn [fst app] in Hin.
    rewrite forallb_forall in Hnone. specialize (Hnone l Hin).
    now apply negb_true_iff in Hnone.
Qed.

End TargetChecks.
